(** * kenvmanager / kloch: the profile resolution engine

    A shallow embedding of
      - [kenvmanager/filesyntax/_profile.py]  (serialized managers, profile
        entity, inheritance flattening, unserialization), and
      - [kloch/filesyntax/_io.py]             (profile repository: lookup by
        identifier, reading, serializing and writing profile files),
    together with the properties the specification states about them.

    The module [_merging.py] ([MergeRule], [refacto_dict],
    [deepmerge_dicts]) is imported by [_profile.py] but is not part of the
    sources at hand.  The profile code is therefore written over these
    functions as parameters (Section [ProfileModel]); module [Merging]
    gives a model of them that follows the specification, used where a
    property depends on what they compute. *)

From Stdlib Require Import String Ascii List ZArith Lia Bool Arith PeanoNat.
From Stdlib Require Import DecimalString.
Import ListNotations.

Local Open Scope string_scope.
Local Open Scope list_scope.

(* ===================================================================== *)
(** ** Python strings *)
(* ===================================================================== *)

Module PyStr.

(** [strip_prefix p s] is [Some r] when [s = p ++ r]. *)
Fixpoint strip_prefix (p s : string) : option string :=
  match p with
  | EmptyString => Some s
  | String a p' =>
      match s with
      | EmptyString => None
      | String b s' => if Ascii.eqb a b then strip_prefix p' s' else None
      end
  end.

(** [str.startswith(p)] *)
Definition startswith (s p : string) : bool :=
  match strip_prefix p s with Some _ => true | None => false end.

(** [str.removeprefix(p)]: drops one leading occurrence of [p], if any. *)
Definition removeprefix (s p : string) : string :=
  match strip_prefix p s with Some r => r | None => s end.

(** [str.endswith(p)] *)
Fixpoint endswith (s p : string) : bool :=
  String.eqb s p ||
  match s with
  | EmptyString => false
  | String _ s' => endswith s' p
  end.

(** [s.split(sep)[-1]] for a one-character separator: the text after the
    last occurrence of [sep], or all of [s] when there is none. *)
Fixpoint split_last_from (sep : ascii) (cur s : string) : string :=
  match s with
  | EmptyString => cur
  | String c s' =>
      if Ascii.eqb c sep then split_last_from sep s' s'
      else split_last_from sep cur s'
  end.

Definition split_last (sep : ascii) (s : string) : string :=
  split_last_from sep s s.

Definition is_space (c : ascii) : bool :=
  let n := nat_of_ascii c in
  (n =? 32)%nat || ((9 <=? n)%nat && (n <=? 13)%nat).

Fixpoint lstrip (s : string) : string :=
  match s with
  | String c s' => if is_space c then lstrip s' else s
  | EmptyString => EmptyString
  end.

Fixpoint rstrip (s : string) : string :=
  match s with
  | EmptyString => EmptyString
  | String c s' =>
      match rstrip s' with
      | EmptyString => if is_space c then EmptyString else String c EmptyString
      | r => String c r
      end
  end.

Definition digit_of (c : ascii) : option Z :=
  let n := nat_of_ascii c in
  if ((48 <=? n)%nat && (n <=? 57)%nat)%bool then Some (Z.of_nat (n - 48))
  else None.

(** Decimal digits with single underscores between digits, as [int()]
    accepts them. [prev_digit] tells whether the previous character was a
    digit, so that the text can neither start nor end with an underscore. *)
Fixpoint digits (prev_digit : bool) (acc : Z) (s : string) : option Z :=
  match s with
  | EmptyString => if prev_digit then Some acc else None
  | String c s' =>
      match digit_of c with
      | Some d => digits true (10 * acc + d) s'
      | None =>
          if (Ascii.eqb c "_" && prev_digit)%bool then
            match s' with
            | String c' _ =>
                match digit_of c' with
                | Some _ => digits false acc s'
                | None => None
                end
            | EmptyString => None
            end
          else None
      end
  end.

(** [int(s)] on ASCII text: surrounding white space, an optional sign,
    decimal digits. [None] stands for the [ValueError] of [int]. *)
Definition int (s : string) : option Z :=
  match rstrip (lstrip s) with
  | String "+" r => digits false 0 r
  | String "-" r => option_map Z.opp (digits false 0 r)
  | r => digits false 0 r
  end.

(** [str(n)] for an integer. *)
Definition str_of_int (z : Z) : string :=
  NilZero.string_of_int (Z.to_int z).

End PyStr.

(* ===================================================================== *)
(** ** Values and dictionaries *)
(* ===================================================================== *)

(** What [yaml.safe_load] yields and what a manager block holds: scalars,
    sequences and mappings with string keys. *)
Unset Elimination Schemes.
Inductive value : Type :=
| VNone
| VBool (b : bool)
| VInt (z : Z)
| VStr (s : string)
| VList (l : list value)
| VDict (d : list (string * value)).
Set Elimination Schemes.

(** A Python [dict] with string keys: entries in insertion order. *)
Definition dict : Type := list (string * value).

(** Induction over values that also descends into sequences and mappings. *)
Definition value_ind (P : value -> Prop)
    (HNone : P VNone)
    (HBool : forall b, P (VBool b))
    (HInt : forall z, P (VInt z))
    (HStr : forall s, P (VStr s))
    (HList : forall l, Forall P l -> P (VList l))
    (HDict : forall d, Forall (fun kv => P (snd kv)) d -> P (VDict d)) :
  forall v, P v :=
  fix go (v : value) : P v :=
    match v with
    | VNone => HNone
    | VBool b => HBool b
    | VInt z => HInt z
    | VStr s => HStr s
    | VList l =>
        HList l ((fix all (xs : list value) : Forall P xs :=
                    match xs with
                    | [] => Forall_nil P
                    | x :: xs' => Forall_cons x (go x) (all xs')
                    end) l)
    | VDict d =>
        HDict d ((fix all (es : dict) : Forall (fun kv => P (snd kv)) es :=
                    match es with
                    | [] => Forall_nil _
                    | e :: es' => Forall_cons e (go (snd e)) (all es')
                    end) d)
    end.

(** [d.get(k)] *)
Fixpoint dict_get (d : dict) (k : string) : option value :=
  match d with
  | [] => None
  | (k', v) :: rest => if String.eqb k' k then Some v else dict_get rest k
  end.

(** [d[k] = v]: an existing key keeps its place, a new key goes last. *)
Fixpoint dict_set (d : dict) (k : string) (v : value) : dict :=
  match d with
  | [] => [(k, v)]
  | (k', v') :: rest =>
      if String.eqb k' k then (k, v) :: rest
      else (k', v') :: dict_set rest k v
  end.

Definition keys (d : dict) : list string := map fst d.

(** The distinct elements of a list in the order of their first
    occurrence. *)
Definition first_seen (l : list string) : list string :=
  fold_left
    (fun seen k => if in_dec string_dec k seen then seen else seen ++ [k])
    l [].

(* ===================================================================== *)
(** ** Outcomes of a call *)
(* ===================================================================== *)

(** A file-system path as [pathlib] sees it: its components ([Path.parts]). *)
Definition Path : Type := list string.

(** The exceptions the modelled code raises, with their message. *)
Inductive error : Type :=
| ValueError (msg : string)
| SyntaxError (msg : string)
| KeyError (key : string)
| IndexError (msg : string)
| FileNotFoundError (path : Path).

(** A call returns, raises, exhausts the recursion budget of the model
    ([OutOfFuel]), or leaves the typed model ([IllTyped]: Python goes on
    with an object that the annotation of the field does not allow). *)
Inductive outcome (A : Type) : Type :=
| Ret (a : A)
| Raise (e : error)
| OutOfFuel
| IllTyped.
Arguments Ret {A} a.
Arguments Raise {A} e.
Arguments OutOfFuel {A}.
Arguments IllTyped {A}.

Definition bind {A B : Type} (m : outcome A) (f : A -> outcome B) : outcome B :=
  match m with
  | Ret a => f a
  | Raise e => Raise e
  | OutOfFuel => OutOfFuel
  | IllTyped => IllTyped
  end.

Declare Scope outcome_scope.
Delimit Scope outcome_scope with outcome.
Notation "x <- m ;; k" := (bind m (fun x => k))
  (at level 61, m at next level, right associativity) : outcome_scope.
Local Open Scope outcome_scope.

(** A list comprehension with a condition that may raise. *)
Fixpoint filterM {A : Type} (f : A -> outcome bool) (l : list A)
  : outcome (list A) :=
  match l with
  | [] => Ret []
  | x :: rest =>
      keep <- f x ;;
      kept <- filterM f rest ;;
      Ret (if keep then x :: kept else kept)
  end.

(* ===================================================================== *)
(** ** The merge algebra ([_merging.py]) *)
(* ===================================================================== *)

Module Merging.

(** Modelled from the spec: the enumeration [MergeRule] of [_merging.py],
    which is not among the sources. "A two-valued tag attached per key at
    merge time: override [...] or append". *)
Inductive MergeRule : Type := override | append.

(** Modelled from the spec: one pass of [refacto_dict] (in [_merging.py],
    not among the sources) over the entries of a mapping: each pair
    is handed to the callback (its value first rewritten by [rec]) and the
    pair it returns is stored in the new mapping. *)
Definition refacto_entries (rec : value -> value)
    (callback : string -> value -> string * value) (src : dict) : dict :=
  fold_left
    (fun new_dict kv =>
       let '(new_key, new_value) := callback (fst kv) (rec (snd kv)) in
       dict_set new_dict new_key new_value)
    src [].

(** Modelled from the spec: the recursion of [refacto_dict] into the
    values that are mappings ("recursing into nested mapping values"). *)
Fixpoint refacto_value (callback : string -> value -> string * value)
    (v : value) {struct v} : value :=
  match v with
  | VDict d => VDict (refacto_entries (refacto_value callback) callback d)
  | _ => v
  end.

(** Modelled from the spec: [refacto_dict] of [_merging.py], which is not
    among the sources. "Recursively walks a mapping, for every key strips
    the += prefix (no-op if absent) producing the same value under the
    resolved key, recursing into nested mapping values."  The stripping
    is the callback the caller passes; the walk builds a new mapping by
    item assignment. *)
Definition refacto_dict (src_dict : dict)
    (callback : string -> value -> string * value) (recursive : bool) : dict :=
  refacto_entries
    (if recursive then refacto_value callback else fun v => v)
    callback src_dict.

(** Modelled from the spec: the test of [deepmerge_dicts] (in
    [_merging.py], not among the sources) that a key is present "under its
    resolved form": the first entry of the mapping built so far whose key
    has that resolved form. *)
Definition find_resolved (key_resolve : string -> string)
    (resolved_k : string) (d : dict) : option (string * value) :=
  find (fun kv => String.eqb (key_resolve (fst kv)) resolved_k) d.

(** Modelled from the spec: the update of [deepmerge_dicts] for a key
    present on both sides. The first entry whose key resolves to
    [resolved_k] becomes [resolved_k -> merged base_value], where it stands
    ("output key order = base's key order for pre-existing keys"). *)
Fixpoint replace_resolved (key_resolve : string -> string)
    (resolved_k : string) (merged : value -> value) (d : dict) : dict :=
  match d with
  | [] => []
  | (k, v) :: rest =>
      if String.eqb (key_resolve k) resolved_k
      then (resolved_k, merged v) :: rest
      else (k, v) :: replace_resolved key_resolve resolved_k merged rest
  end.

(** Modelled from the spec: one step of the left fold of [deepmerge_dicts]
    over the keys of [over]. *)
Definition merge_entry (key_resolve : string -> string)
    (new_content : dict) (k : string) (over_value : value)
    (merged : value -> value) : dict :=
  let resolved_k := key_resolve k in
  match find_resolved key_resolve resolved_k new_content with
  | None => dict_set new_content resolved_k over_value
  | Some _ => replace_resolved key_resolve resolved_k merged new_content
  end.

(** Modelled from the spec: the value [deepmerge_dicts] stores for a key
    present on both sides. *)
Fixpoint merge_value (merge_rule : string -> MergeRule)
    (key_resolve : string -> string) (rule : MergeRule)
    (base_value over_value : value) {struct over_value} : value :=
  match over_value with
  | VDict over_d =>
      match base_value with
      | VDict base_d =>
          VDict
            (fold_left
               (fun new_content kv =>
                  merge_entry key_resolve new_content (fst kv) (snd kv)
                    (fun bv =>
                       merge_value merge_rule key_resolve
                         (merge_rule (fst kv)) bv (snd kv)))
               over_d base_d)
      | _ => over_value
      end
  | VList over_l =>
      match base_value with
      | VList base_l =>
          match rule with
          | append => VList (base_l ++ over_l)
          | override => over_value
          end
      | _ => over_value
      end
  | _ => over_value
  end.

(** Modelled from the spec: [deepmerge_dicts] of [_merging.py], which is
    not among the sources. "For every key k present in over: compute
    resolved_k = key_resolve(k) and rule = rule_of(k). If resolved_k is
    absent from base (checked under its resolved form): insert
    resolved_k -> over[k] unchanged. If present in both and both values
    are mappings: recurse [...] regardless of rule. If present in both,
    rule == append, and both values are sequences: result is
    base_value ++ over_value. Otherwise: result is over[k]. Keys present
    only in base are carried through unchanged. [...] merge is a strict
    left-fold over over's keys in their iteration order; output key order
    = base's key order for pre-existing keys, keys introduced by over
    appended in the order they first occur." *)
Definition deepmerge_dicts (over_content base_content : dict)
    (merge_rule_callback : string -> MergeRule)
    (key_resolve_callback : string -> string) : dict :=
  fold_left
    (fun new_content kv =>
       merge_entry key_resolve_callback new_content (fst kv) (snd kv)
         (fun bv =>
            merge_value merge_rule_callback key_resolve_callback
              (merge_rule_callback (fst kv)) bv (snd kv)))
    over_content base_content.

End Merging.

(* ===================================================================== *)
(** ** Serialized managers and profiles ([_profile.py]) *)
(* ===================================================================== *)

(** [class EnvironmentProfile]: a dataclass with four fields. *)
Unset Elimination Schemes.
Inductive EnvironmentProfile : Type :=
| mkEnvironmentProfile
    (identifier : string)
    (version : string)
    (base : option EnvironmentProfile)
    (managers : dict).
Set Elimination Schemes.

(** Induction along the inheritance chain. *)
Definition EnvironmentProfile_ind (P : EnvironmentProfile -> Prop)
    (Hroot : forall i v m, P (mkEnvironmentProfile i v None m))
    (Hderived : forall i v b m, P b -> P (mkEnvironmentProfile i v (Some b) m)) :
  forall p, P p :=
  fix go (p : EnvironmentProfile) : P p :=
    match p with
    | mkEnvironmentProfile i v None m => Hroot i v m
    | mkEnvironmentProfile i v (Some b) m => Hderived i v b m (go b)
    end.

Definition identifier (p : EnvironmentProfile) : string :=
  let '(mkEnvironmentProfile i _ _ _) := p in i.
Definition version (p : EnvironmentProfile) : string :=
  let '(mkEnvironmentProfile _ v _ _) := p in v.
Definition base (p : EnvironmentProfile) : option EnvironmentProfile :=
  let '(mkEnvironmentProfile _ _ b _) := p in b.
Definition managers (p : EnvironmentProfile) : dict :=
  let '(mkEnvironmentProfile _ _ _ m) := p in m.

(** The mapping [from_dict] reads and [to_dict] builds: the keys may be
    missing, and [base], when present, holds a profile. *)
Record serialized_profile : Type := mk_serialized_profile {
  s_identifier : option string;
  s_version : option string;
  s_base : option EnvironmentProfile;
  s_managers : option dict
}.

(** [asdict[key]] *)
Definition getitem {A : Type} (key : string) (field : option A) : outcome A :=
  match field with
  | Some x => Ret x
  | None => Raise (KeyError key)
  end.

(** The token that marks a key as appending. *)
Definition TOKEN : string := "+=".

(** The message of the error raised for a manager without a class. *)
Definition no_manager_class_message (manager_name : string) : string :=
  ("No manager class registred with the name <" ++ manager_name ++ ">")%string.

Section ProfileModel.

(** The two functions imported from [_merging.py]. *)
Variable refacto_dict :
  dict -> (string -> value -> string * value) -> bool -> dict.
Variable deepmerge_dicts :
  dict -> dict -> (string -> Merging.MergeRule) -> (string -> string) -> dict.

(** The registry of [kenvmanager.managers]: the classes, the lookup of a
    class by its name, and the factory [from_dict] of a class. *)
Variable manager_class : Type.
Variable PackageManagerBase : Type.
Variable get_package_manager_class : string -> option manager_class.
Variable manager_from_dict : manager_class -> value -> PackageManagerBase.

(** *** [PackageManagersSerialized] *)

Definition key_resolve (key : string) : string :=
  PyStr.removeprefix key TOKEN.

Definition merge_rule (key : string) : Merging.MergeRule :=
  if PyStr.startswith key TOKEN then Merging.append else Merging.override.

(** [PackageManagersSerialized.__add__]; [other] has the type of [self],
    so the [TypeError] guard never fires. *)
Definition __add__ (self other : dict) : dict :=
  deepmerge_dicts other self merge_rule key_resolve.

Definition process_pair (key : string) (v : value) : string * value :=
  (PyStr.removeprefix key TOKEN, v).

(** [PackageManagersSerialized.get_resolved] *)
Definition get_resolved (self : dict) : dict :=
  refacto_dict self process_pair true.

(** The loop of [unserialize] over the items of the resolved content. *)
Fixpoint unserialize_items (content : dict)
    (acc : list PackageManagerBase) : outcome (list PackageManagerBase) :=
  match content with
  | [] => Ret acc
  | (manager_name, manager_config) :: rest =>
      match get_package_manager_class manager_name with
      | None => Raise (ValueError (no_manager_class_message manager_name))
      | Some cls =>
          unserialize_items rest (acc ++ [manager_from_dict cls manager_config])
      end
  end.

(** [PackageManagersSerialized.unserialize] *)
Definition unserialize (self : dict) : outcome (list PackageManagerBase) :=
  unserialize_items (get_resolved self) [].

(** The manager built for one block of the resolved content. *)
Definition built_from (kv : string * value) (m : PackageManagerBase) : Prop :=
  exists cls,
    get_package_manager_class (fst kv) = Some cls /\
    m = manager_from_dict cls (snd kv).

Definition registered (manager_name : string) : Prop :=
  get_package_manager_class manager_name <> None.

(** [x] is the first name of [content] without a class. *)
Definition first_unregistered (content : dict) (x : string) : Prop :=
  exists before config after,
    content = before ++ (x, config) :: after /\
    Forall registered (keys before) /\
    get_package_manager_class x = None.

(** *** [EnvironmentProfile] *)

(** [EnvironmentProfile.from_dict]: the profile built from a mapping with
    the keys [identifier], [version], [base] (optional) and [managers]. *)
Definition from_dict (serialized : serialized_profile)
  : outcome EnvironmentProfile :=
  i <- getitem "identifier" (s_identifier serialized) ;;
  v <- getitem "version" (s_version serialized) ;;
  m <- getitem "managers" (s_managers serialized) ;;
  Ret (mkEnvironmentProfile i v (s_base serialized) m).

(** [EnvironmentProfile.to_dict]; the deep copy of the managers is the same
    value. *)
Definition to_dict (self : EnvironmentProfile) : serialized_profile :=
  mk_serialized_profile
    (Some (identifier self)) (Some (version self))
    (base self) (Some (managers self)).

(** [EnvironmentProfile.get_merged_profile] *)
Fixpoint get_merged_profile (self : EnvironmentProfile) : EnvironmentProfile :=
  let managers0 := managers self in
  let managers1 :=
    match base self with
    | Some b => __add__ (managers (get_merged_profile b)) managers0
    | None => managers0
    end in
  mkEnvironmentProfile (identifier self) (version self) None managers1.

End ProfileModel.

(* ===================================================================== *)
(** ** The profile repository ([_io.py]) *)
(* ===================================================================== *)

(** The sources hold [_io.py] at the revision where the package is called
    [kloch] and the field [managers] of a profile is called [launchers]
    ([LauncherSerializedDict] for [PackageManagersSerialized]); the
    [_profile.py] of that revision is not among them. The model reads the
    two names as one field: the document key keeps the name [_io.py] uses,
    the profile field the name [_profile.py] uses. *)

Definition KENV_PROFILE_MAGIC : string := "kloch_profile".
Definition KENV_PROFILE_VERSION : Z := 2.

(** *** Paths *)

Definition path_eqb (p q : Path) : bool :=
  if list_eq_dec string_dec p q then true else false.

(** [Path.parent] and [Path.name] *)
Definition parent (p : Path) : Path := removelast p.
Definition name (p : Path) : string := last p "".

(** The part of a file name from its last dot on, if that dot is not the
    first character. *)
Fixpoint last_dot_suffix (s : string) : option string :=
  match s with
  | EmptyString => None
  | String c s' =>
      match last_dot_suffix s' with
      | Some r => Some r
      | None => if Ascii.eqb c "." then Some s else None
      end
  end.

(** [Path.suffix] *)
Definition suffix (p : Path) : string :=
  match name p with
  | EmptyString => ""
  | String _ rest =>
      match last_dot_suffix rest with
      | Some r => if (String.length r =? 1)%nat then "" else r
      | None => ""
      end
  end.

Fixpoint join (sep : string) (l : list string) : string :=
  match l with
  | [] => ""
  | [x] => x
  | x :: rest => (x ++ sep ++ join sep rest)%string
  end.

(** [str(path)] and [repr(list_of_paths)], as printed on POSIX. *)
Definition str_Path (p : Path) : string :=
  match p with
  | "/" :: rest => ("/" ++ join "/" rest)%string
  | _ => join "/" p
  end.

Definition repr_Paths (l : list Path) : string :=
  ("[" ++ join ", " (map (fun p => "PosixPath('" ++ str_Path p ++ "')") l)
   ++ "]")%string.

(** *** Documents and the world *)

(** What [yaml.safe_load] returns for a profile file: a mapping of which
    the code reads five keys, each of which may be missing. The keys hold
    what the annotations of [_io.py] say: strings, and a mapping for
    [launchers]. *)
Record Document : Type := mkDocument {
  doc_magic : option string;        (* "__magic__" *)
  doc_identifier : option string;   (* "identifier" *)
  doc_version : option string;      (* "version" *)
  doc_base : option string;         (* "base" *)
  doc_launchers : option dict       (* "launchers" *)
}.

(** What the code reads from outside: the files (in the order the file
    system enumerates them), the locations named by the environment
    variable [KENV_PROFILE_PATHS] (empty when it is unset or empty) and
    the module-level list [_PROFILE_LOCATIONS_INTERNAL]. *)
Record World : Type := mkWorld {
  files : list (Path * Document);
  environ_locations : list Path;
  _PROFILE_LOCATIONS_INTERNAL : list Path
}.

(** [file_path.open(...)] followed by [yaml.safe_load]. *)
Fixpoint lookup_file (fs : list (Path * Document)) (p : Path) : option Document :=
  match fs with
  | [] => None
  | (q, d) :: rest => if path_eqb q p then Some d else lookup_file rest p
  end.

Definition yaml_load (w : World) (file_path : Path) : outcome Document :=
  match lookup_file (files w) file_path with
  | Some d => Ret d
  | None => Raise (FileNotFoundError file_path)
  end.

(** [file_path.write_text(yaml.dump(doc))]: an existing file is replaced
    where it stands, a new one is listed last. *)
Fixpoint write_file (fs : list (Path * Document)) (p : Path) (d : Document)
  : list (Path * Document) :=
  match fs with
  | [] => [(p, d)]
  | (q, d') :: rest =>
      if path_eqb q p then (p, d) :: rest else (q, d') :: write_file rest p d
  end.

Definition write_text (w : World) (file_path : Path) (d : Document) : World :=
  mkWorld (write_file (files w) file_path d)
          (environ_locations w) (_PROFILE_LOCATIONS_INTERNAL w).

(** [location.glob("*.yml")] *)
Definition glob_yml (w : World) (location : Path) : list Path :=
  map fst
    (filter (fun f => path_eqb (parent (fst f)) location
                      && PyStr.endswith (name (fst f)) ".yml")
            (files w)).

(** *** The functions of [_io.py] *)

Definition is_file_environment_profile (w : World) (file_path : Path)
  : outcome bool :=
  if negb (String.eqb (suffix file_path) ".yml") then Ret false
  else
    content <- yaml_load w file_path ;;
    match doc_magic content with
    | Some magic => Ret (PyStr.startswith magic KENV_PROFILE_MAGIC)
    | None => Ret false
    end.

Definition get_profile_locations (w : World) : list Path :=
  match environ_locations w, _PROFILE_LOCATIONS_INTERNAL w with
  | [], [] => []
  | [], internal => internal
  | locations, internal => locations ++ internal
  end.

(** [locations or get_profile_locations()] *)
Definition effective_locations (w : World) (locations : option (list Path))
  : list Path :=
  match locations with
  | Some (l :: ls) => l :: ls
  | _ => get_profile_locations w
  end.

Definition get_all_profile_file_paths (w : World)
    (locations : option (list Path)) : outcome (list Path) :=
  filterM (is_file_environment_profile w)
    (flat_map (glob_yml w) (effective_locations w locations)).

Definition _get_profile_identifier (w : World) (file_path : Path)
  : outcome string :=
  asdict <- yaml_load w file_path ;;
  getitem "identifier" (doc_identifier asdict).

Definition get_profile_file_path (w : World) (profile_id : string)
    (profile_locations : option (list Path)) : outcome (list Path) :=
  profile_paths <- get_all_profile_file_paths w profile_locations ;;
  filterM
    (fun path =>
       i <- _get_profile_identifier w path ;;
       Ret (String.eqb i profile_id))
    profile_paths.

Definition version_mismatch_message (profile_version : Z) : string :=
  ("Cannot read profile with version <" ++ PyStr.str_of_int profile_version
   ++ "> while current API version is <"
   ++ PyStr.str_of_int KENV_PROFILE_VERSION ++ ">.")%string.

Definition multiple_base_message (base_name : string) (file_path : Path)
    (base_paths : list Path) : string :=
  ("Found multiple profile with identifier '" ++ base_name
   ++ "' specified from profile '" ++ str_Path file_path ++ "': "
   ++ repr_Paths base_paths ++ ".")%string.

Definition no_base_message (base_name : string) (file_path : Path) : string :=
  ("No profile found with identifier '" ++ base_name
   ++ "' specified from profile '" ++ str_Path file_path ++ "'.")%string.

Definition invalid_int_message (text : string) : string :=
  ("invalid literal for int() with base 10: '" ++ text ++ "'")%string.

(** [read_profile_from_file]. The recursion follows the [base] names found
    in the files, which may form a cycle: [fuel] bounds its depth. *)
Fixpoint read_profile_from_file (fuel : nat) (w : World) (file_path : Path)
    (profile_locations : option (list Path)) : outcome EnvironmentProfile :=
  match fuel with
  | O => OutOfFuel
  | S fuel' =>
      asdict <- yaml_load w file_path ;;
      magic <- getitem "__magic__" (doc_magic asdict) ;;
      let text := PyStr.split_last ":" magic in
      match PyStr.int text with
      | None => Raise (ValueError (invalid_int_message text))
      | Some profile_version =>
          if negb (profile_version =? KENV_PROFILE_VERSION)%Z then
            Raise (SyntaxError (version_mismatch_message profile_version))
          else
            base_profile <-
              match doc_base asdict with
              | None | Some EmptyString => Ret None
              | Some base_name =>
                  base_paths <-
                    get_profile_file_path w base_name profile_locations ;;
                  if (2 <=? List.length base_paths)%nat then
                    Raise (ValueError
                             (multiple_base_message base_name file_path base_paths))
                  else
                    match base_paths with
                    | [] =>
                        Raise (ValueError (no_base_message base_name file_path))
                    | base_path :: _ =>
                        b <- read_profile_from_file fuel' w base_path None ;;
                        Ret (Some b)
                    end
              end ;;
            launchers <- getitem "launchers" (doc_launchers asdict) ;;
            profile <-
              from_dict
                (mk_serialized_profile (doc_identifier asdict)
                   (doc_version asdict) base_profile (Some launchers)) ;;
            match doc_base asdict with
            | Some EmptyString => IllTyped
            | _ => Ret profile
            end
      end
  end.

Definition read_profile_from_id (fuel : nat) (w : World) (profile_id : string)
    (profile_locations : option (list Path)) : outcome EnvironmentProfile :=
  profile_paths <- get_profile_file_path w profile_id profile_locations ;;
  match profile_paths with
  | [] => Raise (IndexError "list index out of range")
  | first :: _ => read_profile_from_file fuel w first profile_locations
  end.

Definition base_not_registered_message (base_identifier : string) : string :=
  ("Base profile " ++ base_identifier ++ " is not registred on disk.")%string.

Definition magic_header : string :=
  (KENV_PROFILE_MAGIC ++ ":" ++ PyStr.str_of_int KENV_PROFILE_VERSION)%string.

(** [serialize_profile]: the mapping handed to [yaml.dump]. *)
Definition serialize_profile (w : World) (profile : EnvironmentProfile)
    (profile_locations : option (list Path)) : outcome Document :=
  let asdict := to_dict profile in
  base_field <-
    match s_base asdict with
    | Some base_profile =>
        base_path <-
          get_profile_file_path w (identifier base_profile) profile_locations ;;
        match base_path with
        | [] =>
            Raise (ValueError
                     (base_not_registered_message (identifier base_profile)))
        | _ :: _ => Ret (Some (identifier base_profile))
        end
    | None => Ret None
    end ;;
  Ret (mkDocument (Some magic_header)
                  (s_identifier asdict)
                  (s_version asdict)
                  base_field
                  (s_managers asdict)).

Definition duplicate_identifier_message (profile_identifier : string) : string :=
  ("Found multiple profile with identifier '" ++ profile_identifier ++ "'.")%string.

Definition path_in (p : Path) (l : list Path) : bool := existsb (path_eqb p) l.

(** [write_profile_to_file]: the world after the call. *)
Definition write_profile_to_file (w : World) (profile : EnvironmentProfile)
    (file_path : Path) (profile_locations : option (list Path))
    (check_valid_id : bool) : outcome World :=
  _ <- (if check_valid_id then
          profile_paths <-
            get_profile_file_path w (identifier profile) profile_locations ;;
          match profile_paths with
          | [] => Ret tt
          | _ :: _ =>
              if negb (path_in file_path profile_paths) then
                Raise (ValueError
                         (duplicate_identifier_message (identifier profile)))
              else Ret tt
          end
        else Ret tt) ;;
  serialized <- serialize_profile w profile profile_locations ;;
  Ret (write_text w file_path serialized).

(* ===================================================================== *)
(** ** Profiles as objects in a store *)
(* ===================================================================== *)

(** The functional [get_merged_profile] above cannot speak of mutation.
    Here the profiles and their managers are objects at addresses, fields
    hold references, and a call returns the store it leaves behind. *)
Module Heap.

Definition addr : Type := nat.

Inductive object : Type :=
| ObjProfile (identifier version : string) (base : option addr) (managers : addr)
| ObjManagers (content : dict).

Definition store : Type := list object.

(** A constructor call: the new object gets the next free address. *)
Definition alloc (s : store) (o : object) : store * addr :=
  (s ++ [o], List.length s).

(** Every object of [s] is still there, unchanged, in [s']. *)
Definition preserved (s s' : store) : Prop :=
  forall a o, nth_error s a = Some o -> nth_error s' a = Some o.

(** The profile an address stands for, read through at most [fuel]
    [base] references. *)
Fixpoint reify (fuel : nat) (s : store) (a : addr)
  : option EnvironmentProfile :=
  match fuel with
  | O => None
  | S fuel' =>
      match nth_error s a with
      | Some (ObjProfile i v b m) =>
          match nth_error s m with
          | Some (ObjManagers c) =>
              match b with
              | None => Some (mkEnvironmentProfile i v None c)
              | Some ba =>
                  match reify fuel' s ba with
                  | Some bp => Some (mkEnvironmentProfile i v (Some bp) c)
                  | None => None
                  end
              end
          | _ => None
          end
      | _ => None
      end
  end.

Section Run.

Variable deepmerge_dicts :
  dict -> dict -> (string -> Merging.MergeRule) -> (string -> string) -> dict.

(** [EnvironmentProfile.get_merged_profile] on the store. A reference
    that does not lead to an object of the annotated class is
    [IllTyped]; a cycle of [base] references exhausts [fuel]. *)
Fixpoint get_merged_profile (fuel : nat) (s : store) (self : addr)
  : outcome (store * addr) :=
  match fuel with
  | O => OutOfFuel
  | S fuel' =>
      match nth_error s self with
      | Some (ObjProfile i v b m) =>
          match b with
          | None => Ret (alloc s (ObjProfile i v None m))
          | Some ba =>
              r <- get_merged_profile fuel' s ba ;;
              let '(s1, merged) := r in
              match nth_error s1 merged with
              | Some (ObjProfile _ _ _ bm) =>
                  match nth_error s1 bm, nth_error s1 m with
                  | Some (ObjManagers bc), Some (ObjManagers oc) =>
                      let '(s2, sum) :=
                        alloc s1 (ObjManagers (__add__ deepmerge_dicts bc oc)) in
                      Ret (alloc s2 (ObjProfile i v None sum))
                  | _, _ => IllTyped
                  end
              | _ => IllTyped
              end
          end
      | _ => IllTyped
      end
  end.

End Run.

End Heap.

(* ===================================================================== *)
(** ** The model of [_merging.py] plugged in *)
(* ===================================================================== *)

(** [base + over] for two serialized models. *)
Definition combine : dict -> dict -> dict := __add__ Merging.deepmerge_dicts.

(** [m.get_resolved()] *)
Definition resolve : dict -> dict := get_resolved Merging.refacto_dict.

(** The key starts with the token at most once. *)
Definition single_token (key : string) : bool :=
  negb (PyStr.startswith (key_resolve key) TOKEN).

(** No key of a mapping, at any depth that [get_resolved] reaches, starts
    with the token more than once. *)
Fixpoint single_token_keys (v : value) : bool :=
  match v with
  | VDict d =>
      forallb
        (fun kv => single_token (fst kv) && single_token_keys (snd kv)) d
  | _ => true
  end.


(** A mapping that [get_resolved] leaves as it is: distinct keys without
    token, values that are themselves left as they are. *)
Definition settled (d : dict) : Prop :=
  NoDup (keys d) /\
  Forall (fun kv => key_resolve (fst kv) = fst kv /\
                    Merging.refacto_value process_pair (snd kv) = snd kv) d.

(* ===================================================================== *)
(** ** The rest of [_io.py] and of [__main__.py] *)
(* ===================================================================== *)

(** [add_profile_location]: the module-level list grows by a location that
    it does not hold yet. *)
Definition add_profile_location (w : World) (location : Path) : World :=
  if path_in location (_PROFILE_LOCATIONS_INTERNAL w) then w
  else mkWorld (files w) (environ_locations w)
               (_PROFILE_LOCATIONS_INTERNAL w ++ [location]).

(** [__main__.main], the part that registers the locations given on the
    command line:
    [[kloch.add_profile_location(path) for path in cli.profile_paths]]. *)
Definition main_add_profile_locations (w : World) (profile_paths : list Path)
  : World :=
  fold_left add_profile_location profile_paths w.

(** The chain of a profile, root first: the profile preceded by its
    ancestors. *)
Fixpoint lineage (p : EnvironmentProfile) : list EnvironmentProfile :=
  match base p with
  | None => [p]
  | Some b => lineage b ++ [p]
  end.

(* ===================================================================== *)
(** ** The configuration of the runtime ([config.py]) *)
(* ===================================================================== *)

Module Config.

(** [str.upper] on ASCII letters. *)
Definition upper_ascii (c : ascii) : ascii :=
  let n := nat_of_ascii c in
  if ((97 <=? n)%nat && (n <=? 122)%nat)%bool then ascii_of_nat (n - 32) else c.

Fixpoint upper (s : string) : string :=
  match s with
  | EmptyString => EmptyString
  | String c s' => String (upper_ascii c) (upper s')
  end.

(** The character occurs in the text. *)
Fixpoint contains (c : ascii) (s : string) : bool :=
  match s with
  | EmptyString => false
  | String c' s' => Ascii.eqb c' c || contains c s'
  end.

(** [s.split(sep)] for a one-character separator. *)
Fixpoint split (sep : ascii) (s : string) : list string :=
  match s with
  | EmptyString => [EmptyString]
  | String c s' =>
      if Ascii.eqb c sep then EmptyString :: split sep s'
      else
        match split sep s' with
        | x :: xs => String c x :: xs
        | [] => [String c EmptyString]
        end
  end.

Definition KLOCH_CONFIG_PREFIX : string := "KLOCH_CONFIG".

Definition KLOCH_CONFIG_ENV_VAR : string :=
  (KLOCH_CONFIG_PREFIX ++ "_PATH")%string.

Definition _cast_list (src_str : string) : list string := split "," src_str.

(** [class KlochConfig]. The dataclass checks no type, so a field holds
    whatever the file or the cast gives. *)
Record KlochConfig : Type := mkKlochConfig {
  launcher_plugins : value;
  cli_logging_format : value;
  cli_logging_default_level : value
}.

(** [KlochConfig()]: every field at its default. *)
Definition default_config : KlochConfig :=
  mkKlochConfig
    (VList [])
    (VStr "{levelname: <7} | {asctime} [{name}] {message}")
    (VStr "INFO").

(** A [dataclasses.Field] of the class: its name, its default and, of its
    metadata, the name of the environment variable and the cast applied to
    the text of that variable. (The metadata also holds a documentation
    text that no function reads.) *)
Record Field : Type := mkField {
  field_name : string;
  field_default : value;
  environ : string;
  environ_cast : string -> value
}.

Definition environ_name (name : string) : string :=
  upper (KLOCH_CONFIG_PREFIX ++ "_" ++ name)%string.

(** The three fields of the class. *)
Definition launcher_plugins_field : Field :=
  mkField "launcher_plugins" (launcher_plugins default_config)
    (environ_name "launcher_plugins")
    (fun s => VList (map VStr (_cast_list s))).
Definition cli_logging_format_field : Field :=
  mkField "cli_logging_format" (cli_logging_format default_config)
    (environ_name "cli_logging_format") VStr.
Definition cli_logging_default_level_field : Field :=
  mkField "cli_logging_default_level"
    (cli_logging_default_level default_config)
    (environ_name "cli_logging_default_level") VStr.

(** [dataclasses.fields(KlochConfig)], in the order of the class body. *)
Definition fields : list Field :=
  [ launcher_plugins_field; cli_logging_format_field;
    cli_logging_default_level_field ].

(** What a call of the module can raise. *)
Inductive error : Type :=
| UnexpectedKeyword (key : string)
    (* TypeError: __init__() got an unexpected keyword argument 'key' *)
| NotAMapping
    (* TypeError: argument after ** must be a mapping *)
| FileNotFound (path : string).
    (* FileNotFoundError *)

Inductive result (A : Type) : Type :=
| Ok (a : A)
| Err (e : error).
Arguments Ok {A} a.
Arguments Err {A} e.

(** What the module reads from outside: [os.getenv] and, for a path, what
    [yaml.safe_load] gives for the file there ([None]: no such file). *)
Record Environment : Type := mkEnvironment {
  getenv : string -> option string;
  load_yaml : string -> option value
}.

Definition is_field_name (key : string) : bool :=
  existsb (fun f => String.eqb (field_name f) key) fields.

Definition get_or (d : dict) (key : string) (default : value) : value :=
  match dict_get d key with
  | Some v => v
  | None => default
  end.

(** [cls( **asdict )]: the generated [__init__] refuses the first keyword
    that is no field and gives its default to a field that is not passed. *)
Definition init (kwargs : dict) : result KlochConfig :=
  match find (fun kv => negb (is_field_name (fst kv))) kwargs with
  | Some (key, _) => Err (UnexpectedKeyword key)
  | None =>
      Ok (mkKlochConfig
            (get_or kwargs "launcher_plugins" (launcher_plugins default_config))
            (get_or kwargs "cli_logging_format"
               (cli_logging_format default_config))
            (get_or kwargs "cli_logging_default_level"
               (cli_logging_default_level default_config)))
  end.

(** [dataclasses.asdict(config)] *)
Definition asdict (c : KlochConfig) : dict :=
  [ ("launcher_plugins", launcher_plugins c);
    ("cli_logging_format", cli_logging_format c);
    ("cli_logging_default_level", cli_logging_default_level c) ].

(** [KlochConfig.from_file] *)
Definition from_file (env : Environment) (file_path : string)
  : result KlochConfig :=
  match load_yaml env file_path with
  | None => Err (FileNotFound file_path)
  | Some (VDict d) => init d
  | Some _ => Err NotAMapping
  end.

(** The loop of [from_environment] over the fields. *)
Definition override_from_environment (env : Environment) (d : dict) : dict :=
  fold_left
    (fun acc f =>
       match getenv env (environ f) with
       | Some env_var_value =>
           dict_set acc (field_name f) (environ_cast f env_var_value)
       | None => acc
       end)
    fields d.

(** [KlochConfig.from_environment] *)
Definition from_environment (env : Environment) : result KlochConfig :=
  match
    match getenv env KLOCH_CONFIG_ENV_VAR with
    | None | Some EmptyString => Ok []
    | Some path =>
        match from_file env path with
        | Ok base => Ok (asdict base)
        | Err e => Err e
        end
    end
  with
  | Err e => Err e
  | Ok d => init (override_from_environment env d)
  end.

(** [KlochConfig.get_field] *)
Definition get_field (name : string) : option Field :=
  match filter (fun f => String.eqb (field_name f) name) fields with
  | f :: _ => Some f
  | [] => None
  end.

(** The value [from_environment] gives to a field: the cast of its
    environment variable when that is set, else [fallback]. *)
Definition field_value (env : Environment) (f : Field) (fallback : value)
  : value :=
  match getenv env (environ f) with
  | Some env_var_value => environ_cast f env_var_value
  | None => fallback
  end.

(** [get_config] *)
Definition get_config (env : Environment) : result KlochConfig :=
  from_environment env.

End Config.

(* ===================================================================== *)
(** ** What the scan of the locations computes *)
(* ===================================================================== *)

(** The paths the comprehension of [get_all_profile_file_paths] runs
    through. *)
Definition candidates (w : World) (locations : option (list Path))
  : list Path :=
  flat_map (glob_yml w) (effective_locations w locations).

(** The file at the path has the suffix and the magic of a profile file. *)
Definition is_profile_path (w : World) (p : Path) : bool :=
  String.eqb (suffix p) ".yml"
  && match lookup_file (files w) p with
     | Some d =>
         match doc_magic d with
         | Some magic => PyStr.startswith magic KENV_PROFILE_MAGIC
         | None => false
         end
     | None => false
     end.

(** The file at the path declares the identifier. *)
Definition declares (w : World) (profile_id : string) (p : Path) : bool :=
  match lookup_file (files w) p with
  | Some d =>
      match doc_identifier d with
      | Some i => String.eqb i profile_id
      | None => false
      end
  | None => false
  end.

(** The file at the path has a key [identifier]. *)
Definition has_identifier (w : World) (p : Path) : bool :=
  match lookup_file (files w) p with
  | Some d => match doc_identifier d with Some _ => true | None => false end
  | None => false
  end.

(** What a returned profile says about the file it was read from. *)
Definition read_from (w : World) (file_path : Path) (p : EnvironmentProfile)
  : Prop :=
  exists d magic,
    lookup_file (files w) file_path = Some d /\
    doc_magic d = Some magic /\
    PyStr.int (PyStr.split_last ":" magic) = Some KENV_PROFILE_VERSION /\
    doc_identifier d = Some (identifier p) /\
    doc_version d = Some (version p) /\
    doc_launchers d = Some (managers p) /\
    doc_base d = option_map identifier (base p).

(* ===================================================================== *)
(** ** Example data *)
(* ===================================================================== *)

(** A chain of three profiles on which the theorem is exercised. *)
Definition profile_A : EnvironmentProfile :=
  mkEnvironmentProfile "A" "1" None
    [("rez", VDict [("requires", VList [VStr "python-3.9"])])].
Definition profile_B : EnvironmentProfile :=
  mkEnvironmentProfile "B" "2" (Some profile_A)
    [("rez", VDict [("+=requires", VList [VStr "maya"])])].
Definition profile_C : EnvironmentProfile :=
  mkEnvironmentProfile "C" "3" (Some profile_B)
    [("rez", VDict [("params", VList [VStr "--stats"])])].


(** The same chain as objects: managers at 0, 2 and 4, profiles at 1, 3
    and 5. *)
Definition store_ABC : Heap.store :=
  [ Heap.ObjManagers (managers profile_A);
    Heap.ObjProfile "A" "1" None 0;
    Heap.ObjManagers (managers profile_B);
    Heap.ObjProfile "B" "2" (Some 1) 2;
    Heap.ObjManagers (managers profile_C);
    Heap.ObjProfile "C" "3" (Some 3) 4 ].

(** The store and the address returned by flattening the profile at 5. *)
Definition store_ABC_after : Heap.store * Heap.addr :=
  Eval vm_compute in
    match Heap.get_merged_profile Merging.deepmerge_dicts 3 store_ABC 5 with
    | Ret r => r
    | _ => ([], 0)
    end.

(** A registry with one class. *)
Definition example_class (manager_name : string) : option string :=
  if String.eqb manager_name "rezenv" then Some "RezEnvManager" else None.
Definition example_from_dict (cls : string) (config : value) : string * value :=
  (cls, config).
Definition example_managers : dict :=
  [("+=rezenv", VDict [("requires", VList [VStr "python-3.9"])])].

(** A key that carries the token twice. *)
Definition twice_tokenized : dict := [("+=+=a", VInt 1)].

(** Two managers of which the second appends to the first. *)
Definition managers_base : dict :=
  [("rezenv", VDict []); ("requires", VList [VStr "python-3.9"])].
Definition managers_over : dict :=
  [("+=requires", VList [VStr "maya"]); ("params", VList [VStr "--stats"])].

(** *** Worlds *)

Definition profiles_dir : Path := ["/"; "profiles"].
Definition searched : option (list Path) := Some [profiles_dir].

Definition profile_document (i v : string) (b : option string) (m : dict)
  : Document :=
  mkDocument (Some magic_header) (Some i) (Some v) b (Some m).

(** Two files that declare the same identifier. *)
Definition dup_one : Path := ["/"; "profiles"; "one.yml"].
Definition dup_two : Path := ["/"; "profiles"; "two.yml"].
Definition world_dup : World :=
  mkWorld [ (dup_one, profile_document "dup" "1" None []);
            (dup_two, profile_document "dup" "2" None []) ]
          [] [].

(** A profile whose base is declared twice, and one whose base is declared
    nowhere. *)
Definition child_of_dup : Path := ["/"; "profiles"; "child.yml"].
Definition orphan : Path := ["/"; "profiles"; "orphan.yml"].
Definition world_bases : World :=
  mkWorld [ (dup_one, profile_document "dup" "1" None []);
            (dup_two, profile_document "dup" "2" None []);
            (child_of_dup, profile_document "child" "1" (Some "dup") []);
            (orphan, profile_document "orphan" "1" (Some "nowhere") []) ]
          [] [].

(** A file of another version of the format. *)
Definition future_file : Path := ["/"; "profiles"; "future.yml"].
Definition world_future : World :=
  mkWorld [ (future_file,
             mkDocument (Some "kloch_profile:999") (Some "future") (Some "1")
                        None (Some [])) ]
          [] [].

(** A base on disk, and a profile in memory whose base carries the same
    identifier with another content. *)
Definition base_file : Path := ["/"; "profiles"; "b.yml"].
Definition derived_file : Path := ["/"; "profiles"; "p.yml"].
Definition world_base : World :=
  mkWorld [ (base_file, profile_document "b" "1" None managers_base) ] [] [].
Definition base_on_disk : EnvironmentProfile :=
  mkEnvironmentProfile "b" "1" None managers_base.
Definition base_in_memory : EnvironmentProfile :=
  mkEnvironmentProfile "b" "9" None [].
Definition derived_true : EnvironmentProfile :=
  mkEnvironmentProfile "p" "1" (Some base_on_disk) managers_over.
Definition derived_stale : EnvironmentProfile :=
  mkEnvironmentProfile "p" "1" (Some base_in_memory) managers_over.
Definition rootless : EnvironmentProfile :=
  mkEnvironmentProfile "p" "1"
    (Some (mkEnvironmentProfile "nowhere" "1" None [])) [].

(** *** Further worlds *)

(** A text file, a profile file of any version and a profile file without
    identifier, in a searched directory. *)
Definition notes_file : Path := ["/"; "profiles"; "notes.txt"].
Definition versionless_file : Path := ["/"; "profiles"; "versionless.yml"].
Definition nameless_file : Path := ["/"; "profiles"; "nameless.yml"].
Definition world_odd : World :=
  mkWorld [ (notes_file,
             mkDocument (Some "whatever:2") (Some "notes") (Some "1")
                        None (Some []));
            (versionless_file,
             mkDocument (Some "kloch_profile") (Some "versionless") (Some "1")
                        None (Some []));
            (nameless_file,
             mkDocument (Some magic_header) None (Some "1") None (Some [])) ]
          [] [].

(** Two files that name each other as base, found through the locations
    of the environment. *)
Definition ping_file : Path := ["/"; "profiles"; "ping.yml"].
Definition pong_file : Path := ["/"; "profiles"; "pong.yml"].
Definition world_cycle : World :=
  mkWorld [ (ping_file, profile_document "ping" "1" (Some "pong") []);
            (pong_file, profile_document "pong" "1" (Some "ping") []) ]
          [profiles_dir] [].

(** A chain of three files in a directory that is passed explicitly, with
    no default location. *)
Definition root_file : Path := ["/"; "profiles"; "root.yml"].
Definition middle_file : Path := ["/"; "profiles"; "middle.yml"].
Definition leaf_file : Path := ["/"; "profiles"; "leaf.yml"].
Definition world_chain : World :=
  mkWorld [ (root_file, profile_document "root" "1" None []);
            (middle_file, profile_document "middle" "1" (Some "root") []);
            (leaf_file, profile_document "leaf" "1" (Some "middle") []) ]
          [] [].

(** *** Environments of the configuration *)

(** A configuration file with two of the three fields, and one with a key
    that is no field. *)
Definition config_blaj : value :=
  VDict [ ("cli_logging_default_level", VStr "WARNING");
          ("cli_logging_format", VStr "{levelname: <7}: {message}") ].
Definition config_molg : value :=
  VDict [ ("cli_logging_format", VStr "{message}");
          ("NON_VALID_KEY", VInt 1) ].

Definition example_load_yaml (path : string) : option value :=
  if String.eqb path "config-blaj.yml" then Some config_blaj
  else if String.eqb path "config-molg.yml" then Some config_molg
  else None.

(** The environment of the test of [from_environment]: the configuration
    file is named and the default level is set. *)
Definition environment_blaj : Config.Environment :=
  Config.mkEnvironment
    (fun var =>
       if String.eqb var "KLOCH_CONFIG_PATH" then Some "config-blaj.yml"
       else if String.eqb var "KLOCH_CONFIG_CLI_LOGGING_DEFAULT_LEVEL"
            then Some "ERROR"
       else None)
    example_load_yaml.

(** An environment that names no file and sets the plugins to the empty
    text. *)
Definition environment_empty_plugins : Config.Environment :=
  Config.mkEnvironment
    (fun var =>
       if String.eqb var "KLOCH_CONFIG_LAUNCHER_PLUGINS" then Some ""
       else None)
    example_load_yaml.
(* ===================================================================== *)
(** * Properties *)
(* ===================================================================== *)

(** ** Inheritance flattening *)

Section MergedProfile.

Variable deepmerge_dicts :
  dict -> dict -> (string -> Merging.MergeRule) -> (string -> string) -> dict.

Local Notation "a +' b" := (__add__ deepmerge_dicts a b)
  (at level 50, left associativity).
Local Abbreviation merged := (get_merged_profile deepmerge_dicts).

Lemma get_merged_profile_root (p : EnvironmentProfile) :
  base p = None ->
  merged p = mkEnvironmentProfile (identifier p) (version p) None (managers p).
Proof.
  destruct p as [i v b m]; simpl; intros ->; reflexivity.
Qed.

Lemma get_merged_profile_derived (p b : EnvironmentProfile) :
  base p = Some b ->
  merged p =
    mkEnvironmentProfile (identifier p) (version p) None
      (managers (merged b) +' managers p).
Proof.
  destruct p as [i v b' m]; simpl; intros ->; reflexivity.
Qed.

Lemma get_merged_profile_identity (p : EnvironmentProfile) :
  identifier (merged p) = identifier p /\
  version (merged p) = version p /\
  base (merged p) = None.
Proof.
  destruct p as [i v b m]; simpl; auto.
Qed.


End MergedProfile.


(** ** Flattening on the store: nothing is mutated *)

Section HeapFacts.

Variable deepmerge_dicts :
  dict -> dict -> (string -> Merging.MergeRule) -> (string -> string) -> dict.

Local Abbreviation run := (Heap.get_merged_profile deepmerge_dicts).
Local Abbreviation merged := (get_merged_profile deepmerge_dicts).

Local Abbreviation preserved := Heap.preserved.

Lemma preserved_alloc s o : preserved s (fst (Heap.alloc s o)).
Proof.
  intros a x H. simpl.
  rewrite nth_error_app1; [exact H|].
  apply nth_error_Some. congruence.
Qed.

Lemma nth_error_alloc (s : Heap.store) o :
  nth_error (s ++ [o]) (List.length s) = Some o.
Proof.
  rewrite nth_error_app2 by lia.
  rewrite Nat.sub_diag. reflexivity.
Qed.

Lemma reify_preserved n : forall s s' a p,
  preserved s s' -> Heap.reify n s a = Some p -> Heap.reify n s' a = Some p.
Proof.
  induction n as [|n IH]; intros s s' a p Hpres; simpl; [discriminate|].
  destruct (nth_error s a) as [[i v b m|c]|] eqn:Ha; try discriminate.
  rewrite (Hpres _ _ Ha).
  destruct (nth_error s m) as [[i' v' b' m'|c]|] eqn:Hm; try discriminate.
  rewrite (Hpres _ _ Hm).
  destruct b as [ba|]; [|auto].
  destruct (Heap.reify n s ba) as [bp|] eqn:Hb; try discriminate.
  rewrite (IH _ _ _ _ Hpres Hb). auto.
Qed.

(** A call only allocates: the store grows at its end and the result is
    one of the new objects. *)
Lemma get_merged_profile_allocates fuel : forall s self s' r,
  run fuel s self = Ret (s', r) ->
  preserved s s' /\ List.length s <= r < List.length s'.
Proof.
  induction fuel as [|fuel IH]; intros s self s' r; simpl; [discriminate|].
  destruct (nth_error s self) as [[i v b m|c]|] eqn:Hself; try discriminate.
  destruct b as [ba|].
  - destruct (run fuel s ba) as [[s1 r1]| | |] eqn:Hrec; simpl; try discriminate.
    destruct (IH _ _ _ _ Hrec) as [Hpres [Hlo Hhi]].
    destruct (nth_error s1 r1) as [[i1 v1 b1 bm|c]|]; try discriminate.
    destruct (nth_error s1 bm) as [[? ? ? ?|bc]|]; try discriminate.
    destruct (nth_error s1 m) as [[? ? ? ?|oc]|]; try discriminate.
    intros H; injection H as <- <-.
    split.
    + intros a o Ha. apply Hpres in Ha.
      rewrite !nth_error_app1; [exact Ha| |].
      * apply nth_error_Some. congruence.
      * rewrite length_app. simpl.
        assert (a < List.length s1) by (apply nth_error_Some; congruence). lia.
    + rewrite !length_app. simpl. lia.
  - intros H; injection H as <- <-.
    split; [apply (preserved_alloc s)|].
    rewrite length_app. simpl. lia.
Qed.

(** On a well-formed chain the call returns, and the object it returns
    stands for the functional [get_merged_profile] of the profile. *)
Lemma get_merged_profile_refines n : forall s self p,
  Heap.reify n s self = Some p ->
  exists s' r,
    run n s self = Ret (s', r) /\ Heap.reify 1 s' r = Some (merged p).
Proof.
  induction n as [|n IH]; intros s self p; simpl; [discriminate|].
  destruct (nth_error s self) as [[i v b m|c]|] eqn:Hself; try discriminate.
  destruct (nth_error s m) as [[? ? ? ?|oc]|] eqn:Hm; try discriminate.
  destruct b as [ba|].
  - destruct (Heap.reify n s ba) as [bp|] eqn:Hb; try discriminate.
    intros H; injection H as <-.
    destruct (IH _ _ _ Hb) as (s1 & r1 & Hrun & Hre).
    rewrite Hrun. simpl.
    destruct (get_merged_profile_allocates _ _ _ _ _ Hrun) as [Hpres _].
    simpl in Hre.
    destruct (nth_error s1 r1) as [[i1 v1 b1 bm|c]|] eqn:Hr1; try discriminate.
    destruct (nth_error s1 bm) as [[? ? ? ?|bc]|] eqn:Hbm; try discriminate.
    rewrite (Hpres _ _ Hm).
    destruct b1 as [?|]; [discriminate|].
    injection Hre as Hre.
    eexists _, _. split; [reflexivity|].
    rewrite nth_error_alloc.
    rewrite nth_error_app1 by (rewrite length_app; simpl; lia).
    rewrite nth_error_alloc.
    rewrite <- Hre. reflexivity.
  - intros H; injection H as <-.
    eexists _, _. split; [reflexivity|].
    simpl. rewrite nth_error_alloc.
    rewrite nth_error_app1 by (apply nth_error_Some; congruence).
    rewrite Hm. reflexivity.
Qed.

(** C9. [get_merged_profile] never mutates: whenever a call returns,
    every object that was in the store (the profile, its base, every
    ancestor and their managers) is still there with the same fields, and
    the result is a newly allocated object. On every well-formed chain the
    call does return; the chain then reads back as the same profile, and
    the new object is a profile without base. *)
Theorem get_merged_profile_never_mutates :
  (forall fuel s self s' r,
     run fuel s self = Ret (s', r) ->
     (forall a o, nth_error s a = Some o -> nth_error s' a = Some o) /\
     nth_error s r = None) /\
  (forall n s self p,
     Heap.reify n s self = Some p ->
     exists s' r,
       run n s self = Ret (s', r) /\
       Heap.reify n s' self = Some p /\
       Heap.reify 1 s' r = Some (merged p) /\
       base (merged p) = None).
Proof.
  split.
  - intros fuel s self s' r Hrun.
    destruct (get_merged_profile_allocates _ _ _ _ _ Hrun) as [Hpres [Hlo _]].
    split; [exact Hpres|].
    apply nth_error_None. exact Hlo.
  - intros n s self p Hre.
    destruct (get_merged_profile_refines _ _ _ _ Hre) as (s' & r & Hrun & Hres).
    exists s', r. split; [exact Hrun|].
    destruct (get_merged_profile_allocates _ _ _ _ _ Hrun) as [Hpres _].
    split; [exact (reify_preserved _ _ _ _ _ Hpres Hre)|].
    split; [exact Hres|].
    apply get_merged_profile_identity.
Qed.

End HeapFacts.

Lemma get_merged_profile_never_mutates_witness :
  (forall a o, nth_error store_ABC a = Some o ->
               nth_error (fst store_ABC_after) a = Some o) /\
  nth_error store_ABC (snd store_ABC_after) = None /\
  exists s' r,
    Heap.get_merged_profile Merging.deepmerge_dicts 3 store_ABC 5 = Ret (s', r) /\
    Heap.reify 3 s' 5 = Some profile_C.
Proof.
  destruct (get_merged_profile_never_mutates Merging.deepmerge_dicts)
    as [Hframe Hreturns].
  split; [|split].
  - apply (Hframe 3 store_ABC 5 (fst store_ABC_after) (snd store_ABC_after)).
    reflexivity.
  - apply (Hframe 3 store_ABC 5 (fst store_ABC_after) (snd store_ABC_after)).
    reflexivity.
  - destruct (Hreturns 3 store_ABC 5 profile_C eq_refl)
      as (s' & r & Hrun & Hsame & _).
    exists s', r. split; [exact Hrun | exact Hsame].
Defined.

(** ** Unserialization *)

Section Unserialize.

Variable refacto_dict :
  dict -> (string -> value -> string * value) -> bool -> dict.
Variable manager_class : Type.
Variable PackageManagerBase : Type.
Variable get_package_manager_class : string -> option manager_class.
Variable manager_from_dict : manager_class -> value -> PackageManagerBase.

Local Abbreviation items :=
  (unserialize_items manager_class PackageManagerBase
     get_package_manager_class manager_from_dict).
Local Abbreviation unserialize' :=
  (unserialize refacto_dict manager_class PackageManagerBase
     get_package_manager_class manager_from_dict).

Local Abbreviation built :=
  (built_from manager_class PackageManagerBase
     get_package_manager_class manager_from_dict).
Local Abbreviation has_class :=
  (registered manager_class get_package_manager_class).
Local Abbreviation first_missing :=
  (first_unregistered manager_class get_package_manager_class).

Lemma registered_dec (content : dict) :
  Forall has_class (keys content) \/ exists x, first_missing content x.
Proof.
  induction content as [|[k c] rest IH]; [left; constructor|].
  destruct (get_package_manager_class k) as [cls|] eqn:Hk.
  - destruct IH as [Hall | [x (before & config & after & -> & Hbefore & Hx)]].
    + left. constructor; [unfold registered; simpl; congruence | exact Hall].
    + right. exists x, ((k, c) :: before), config, after.
      split; [reflexivity | split; [|exact Hx]].
      constructor; [unfold registered; simpl; congruence | exact Hbefore].
  - right. exists k, [], c, rest.
    split; [reflexivity | split; [constructor | exact Hk]].
Qed.

Lemma unserialize_items_raises content : forall acc x,
  first_missing content x ->
  items content acc = Raise (ValueError (no_manager_class_message x)).
Proof.
  intros acc x (before & config & after & -> & Hbefore & Hx).
  revert acc. induction before as [|[k c] before IH]; intros acc; simpl.
  - rewrite Hx. reflexivity.
  - inversion Hbefore as [|? ? Hk Hrest]; subst.
    destruct (get_package_manager_class k) as [cls|] eqn:Hcls;
      [|exfalso; apply Hk; exact Hcls].
    apply IH. exact Hrest.
Qed.

Lemma unserialize_items_returns content : forall acc,
  Forall has_class (keys content) ->
  exists l, items content acc = Ret (acc ++ l) /\ Forall2 built content l.
Proof.
  induction content as [|[k c] rest IH]; intros acc Hall; simpl.
  - exists []. rewrite app_nil_r. split; [reflexivity | constructor].
  - inversion Hall as [|? ? Hk Hrest]; subst.
    destruct (get_package_manager_class k) as [cls|] eqn:Hcls;
      [|exfalso; apply Hk; exact Hcls].
    destruct (IH (acc ++ [manager_from_dict cls c]) Hrest) as (l & Hrun & Hl).
    exists (manager_from_dict cls c :: l).
    rewrite Hrun, <- app_assoc. split; [reflexivity|].
    constructor; [|exact Hl].
    exists cls. split; [exact Hcls | reflexivity].
Qed.


End Unserialize.


(** ** Resolution of the tokens *)

Section Resolve.

Local Abbreviation rv := (Merging.refacto_value process_pair).

(** One item assignment of the walk. *)
Let step (new_dict : dict) (kv : string * value) : dict :=
  dict_set new_dict (key_resolve (fst kv)) (rv (snd kv)).

Lemma resolve_fold (d : dict) : resolve d = fold_left step d [].
Proof. reflexivity. Qed.

Lemma refacto_value_dict (d : dict) : rv (VDict d) = VDict (resolve d).
Proof. reflexivity. Qed.

Lemma removeprefix_without_prefix (s p : string) :
  PyStr.startswith s p = false -> PyStr.removeprefix s p = s.
Proof.
  unfold PyStr.startswith, PyStr.removeprefix.
  destruct (PyStr.strip_prefix p s); [discriminate | reflexivity].
Qed.

Lemma dict_set_fresh (d : dict) k v :
  ~ In k (keys d) -> dict_set d k v = d ++ [(k, v)].
Proof.
  induction d as [|[k' v'] rest IH]; simpl; intros Hk; [reflexivity|].
  destruct (String.eqb_spec k' k) as [->|Hne].
  - exfalso. apply Hk. left. reflexivity.
  - rewrite IH; [reflexivity|]. intros Hin. apply Hk. right. exact Hin.
Qed.

Lemma keys_dict_set_present (d : dict) k v :
  In k (keys d) -> keys (dict_set d k v) = keys d.
Proof.
  induction d as [|[k' v'] rest IH]; simpl; intros Hk; [contradiction|].
  destruct (String.eqb_spec k' k) as [->|Hne]; [reflexivity|].
  simpl. f_equal. apply IH. destruct Hk as [Hk|Hk]; [congruence | exact Hk].
Qed.

Lemma in_dict_set (d : dict) k v x :
  In x (dict_set d k v) -> x = (k, v) \/ In x d.
Proof.
  induction d as [|[k' v'] rest IH]; simpl.
  - intros [<-|[]]. left. reflexivity.
  - destruct (String.eqb_spec k' k) as [->|Hne]; simpl.
    + intros [<-|Hin]; auto.
    + intros [<-|Hin]; auto. destruct (IH Hin); auto.
Qed.

Lemma dict_set_settled (d : dict) k v :
  settled d -> key_resolve k = k -> rv v = v -> settled (dict_set d k v).
Proof.
  intros [Hnd Hall] Hk Hv. split.
  - destruct (in_dec string_dec k (keys d)) as [Hin|Hout].
    + rewrite keys_dict_set_present; assumption.
    + rewrite dict_set_fresh by assumption.
      unfold keys. rewrite map_app. simpl.
      apply NoDup_app; [exact Hnd | repeat constructor; intros [] |].
      intros x Hx [<-|[]]. exact (Hout Hx).
  - apply Forall_forall. intros x Hx.
    apply in_dict_set in Hx. destruct Hx as [->|Hx]; [simpl; auto|].
    rewrite Forall_forall in Hall. apply Hall, Hx.
Qed.

Lemma fold_step_settled (d : dict) : forall acc,
  settled acc ->
  Forall (fun kv => key_resolve (key_resolve (fst kv)) = key_resolve (fst kv) /\
                    rv (rv (snd kv)) = rv (snd kv)) d ->
  settled (fold_left step d acc).
Proof.
  induction d as [|kv rest IH]; intros acc Hacc Hd; simpl; [exact Hacc|].
  inversion Hd as [|? ? [Hk Hv] Hrest]; subst.
  apply IH; [|exact Hrest].
  apply dict_set_settled; assumption.
Qed.

Lemma fold_step_fixed (e : dict) : forall acc,
  NoDup (keys acc ++ keys e) ->
  Forall (fun kv => key_resolve (fst kv) = fst kv /\ rv (snd kv) = snd kv) e ->
  fold_left step e acc = acc ++ e.
Proof.
  induction e as [|[k v] rest IH]; intros acc Hnd He; simpl.
  - rewrite app_nil_r. reflexivity.
  - inversion He as [|? ? [Hk Hv] Hrest]; subst. simpl in Hk, Hv.
    unfold step at 2. simpl. rewrite Hk, Hv.
    rewrite dict_set_fresh.
    + rewrite IH; [rewrite <- app_assoc; reflexivity | | exact Hrest].
      unfold keys in *. rewrite map_app, <- app_assoc. exact Hnd.
    + intros Hin. simpl in Hnd.
      apply NoDup_remove_2 in Hnd. apply Hnd, in_or_app. left. exact Hin.
Qed.

(** The names of the resolved content are the resolved names of the
    content, each at the place where it is first seen. *)
Lemma resolve_keys_first_seen (m : dict) :
  keys (resolve m) = first_seen (map key_resolve (keys m)).
Proof.
  rewrite resolve_fold. unfold first_seen.
  change (@nil string) with (keys []) at 2.
  generalize (@nil (string * value)) as acc.
  induction m as [|[k v] rest IH]; intros acc; simpl; [reflexivity|].
  rewrite IH. f_equal. unfold step. simpl.
  destruct (in_dec string_dec (key_resolve k) (keys acc)) as [Hin|Hout].
  - apply keys_dict_set_present. exact Hin.
  - rewrite dict_set_fresh by exact Hout.
    unfold keys. rewrite map_app. reflexivity.
Qed.

Lemma settled_resolve_fixed (e : dict) : settled e -> resolve e = e.
Proof.
  intros [Hnd Hall]. rewrite resolve_fold.
  apply (fold_step_fixed e []); assumption.
Qed.

Lemma refacto_value_idempotent (v : value) :
  single_token_keys v = true -> rv (rv v) = rv v.
Proof.
  induction v as [| | | | l _ | d IH] using value_ind; intros Hst;
    try reflexivity.
  rewrite !refacto_value_dict. f_equal.
  apply settled_resolve_fixed. rewrite resolve_fold.
  apply fold_step_settled; [split; constructor|].
  simpl in Hst. rewrite forallb_forall in Hst.
  rewrite Forall_forall in IH |- *.
  intros kv Hin. specialize (Hst kv Hin).
  apply andb_true_iff in Hst. destruct Hst as [Htok Hsub].
  split; [|apply IH; assumption].
  apply removeprefix_without_prefix.
  apply negb_true_iff. exact Htok.
Qed.

(** C5, as amended. Resolving twice gives what resolving once gives for
    every mapping in which no key, at any depth, starts with the token
    more than once. *)
Theorem resolve_idempotent_single_token (m : dict) :
  single_token_keys (VDict m) = true ->
  resolve (resolve m) = resolve m.
Proof.
  intros Hst.
  pose proof (refacto_value_idempotent (VDict m) Hst) as H.
  rewrite !refacto_value_dict in H. injection H as H. exact H.
Qed.

End Resolve.

Lemma resolve_idempotent_single_token_witness :
  resolve (resolve example_managers) = resolve example_managers.
Proof.
  apply (resolve_idempotent_single_token example_managers). reflexivity.
Defined.

(** C5, as stated, fails: [get_resolved] strips one token from a key, so a
    key that carries two is changed again by a second resolution. *)
Lemma resolve_not_idempotent :
  resolve twice_tokenized = [("+=a", VInt 1)] /\
  resolve (resolve twice_tokenized) = [("a", VInt 1)] /\
  resolve (resolve twice_tokenized) <> resolve twice_tokenized.
Proof.
  split; [reflexivity | split; [reflexivity | discriminate]].
Qed.

(** ** Combination of two serialized models *)

Section Combine.

Local Abbreviation found := (Merging.find_resolved key_resolve).

(** One step of the fold of [deepmerge_dicts] as [__add__] calls it. *)
Let mstep (new_content : dict) (kv : string * value) : dict :=
  Merging.merge_entry key_resolve new_content (fst kv) (snd kv)
    (fun bv =>
       Merging.merge_value merge_rule key_resolve (merge_rule (fst kv))
         bv (snd kv)).

Lemma combine_fold (base_m over_m : dict) :
  combine base_m over_m = fold_left mstep over_m base_m.
Proof. reflexivity. Qed.

Lemma found_dict_set_other rk (d : dict) k1 v :
  key_resolve k1 <> rk -> found rk (dict_set d k1 v) = found rk d.
Proof.
  intros Hne. unfold Merging.find_resolved.
  induction d as [|[k0 v0] rest IH]; simpl.
  - destruct (String.eqb_spec (key_resolve k1) rk); [contradiction | reflexivity].
  - destruct (String.eqb_spec k0 k1) as [->|Hk]; simpl.
    + destruct (String.eqb_spec (key_resolve k1) rk); [contradiction | reflexivity].
    + destruct (String.eqb (key_resolve k0) rk); [reflexivity | exact IH].
Qed.

Lemma found_replace_other rk rk' f (d : dict) :
  rk' <> rk -> key_resolve rk' = rk' ->
  found rk (Merging.replace_resolved key_resolve rk' f d) = found rk d.
Proof.
  intros Hne Hfix. unfold Merging.find_resolved.
  induction d as [|[k0 v0] rest IH]; simpl; [reflexivity|].
  destruct (String.eqb_spec (key_resolve k0) rk') as [Hk|Hk]; simpl.
  - rewrite Hfix, Hk.
    destruct (String.eqb_spec rk' rk); [contradiction | reflexivity].
  - destruct (String.eqb (key_resolve k0) rk); [reflexivity | exact IH].
Qed.

Lemma found_replace_same rk f (d : dict) bk bv :
  key_resolve rk = rk ->
  found rk d = Some (bk, bv) ->
  found rk (Merging.replace_resolved key_resolve rk f d) = Some (rk, f bv).
Proof.
  intros Hfix. unfold Merging.find_resolved.
  induction d as [|[k0 v0] rest IH]; simpl; [discriminate|].
  destruct (String.eqb_spec (key_resolve k0) rk) as [Hk|Hk]; simpl.
  - intros H; injection H as <- <-.
    rewrite Hfix, String.eqb_refl. reflexivity.
  - destruct (String.eqb_spec (key_resolve k0) rk); [contradiction | exact IH].
Qed.

Lemma mstep_other rk acc kv :
  key_resolve (fst kv) <> rk ->
  key_resolve (key_resolve (fst kv)) = key_resolve (fst kv) ->
  found rk (mstep acc kv) = found rk acc.
Proof.
  intros Hne Hfix. unfold mstep, Merging.merge_entry.
  destruct (found (key_resolve (fst kv)) acc).
  - apply found_replace_other; assumption.
  - apply found_dict_set_other. congruence.
Qed.

Lemma fold_mstep_other rk (o : dict) : forall acc,
  Forall (fun kv => key_resolve (fst kv) <> rk /\
                    key_resolve (key_resolve (fst kv)) = key_resolve (fst kv)) o ->
  found rk (fold_left mstep o acc) = found rk acc.
Proof.
  induction o as [|kv rest IH]; intros acc Ho; simpl; [reflexivity|].
  inversion Ho as [|? ? [Hne Hfix] Hrest]; subst.
  rewrite IH by exact Hrest. apply mstep_other; assumption.
Qed.

Lemma found_get rk (d : dict) v :
  key_resolve rk = rk -> found rk d = Some (rk, v) -> dict_get d rk = Some v.
Proof.
  intros Hfix. unfold Merging.find_resolved.
  induction d as [|[k0 v0] rest IH]; simpl; [discriminate|].
  destruct (String.eqb_spec (key_resolve k0) rk) as [Hk|Hk].
  - intros H; injection H as -> ->. rewrite String.eqb_refl. reflexivity.
  - destruct (String.eqb_spec k0 rk) as [->|_]; [contradiction | exact IH].
Qed.

(** Two mappings under one key are merged key by key, whatever the rule. *)
Lemma merge_value_mappings rule bd od :
  Merging.merge_value merge_rule key_resolve rule (VDict bd) (VDict od)
  = VDict (combine bd od).
Proof. reflexivity. Qed.

Example combine_nested :
  combine [("m", VDict [("x", VInt 1); ("y", VInt 2)])]
          [("m", VDict [("y", VInt 9); ("z", VInt 3)])]
  = [("m", VDict [("x", VInt 1); ("y", VInt 9); ("z", VInt 3)])].
Proof. reflexivity. Qed.

Lemma merge_value_sequences k bl ol :
  Merging.merge_value merge_rule key_resolve (merge_rule k) (VList bl) (VList ol)
  = VList (if PyStr.startswith k TOKEN then bl ++ ol else ol).
Proof.
  unfold merge_rule. destruct (PyStr.startswith k TOKEN); reflexivity.
Qed.

Lemma mstep_same acc k bk bl ol :
  key_resolve (key_resolve k) = key_resolve k ->
  found (key_resolve k) acc = Some (bk, VList bl) ->
  found (key_resolve k) (mstep acc (k, VList ol)) =
    Some (key_resolve k,
          VList (if PyStr.startswith k TOKEN then bl ++ ol else ol)).
Proof.
  intros Hk Hacc. unfold mstep, Merging.merge_entry. simpl fst. simpl snd.
  rewrite Hacc.
  rewrite (found_replace_same _ _ _ _ _ Hk Hacc).
  rewrite merge_value_sequences. reflexivity.
Qed.

(** C2. Combining two serialized models: for a key whose resolved name is
    present on both sides with sequences as values, the combination holds
    under that name the sequence of the over side when the key of the over
    side has no token, and the sequence of the base followed by the
    sequence of the over side when it has the token. The keys of the over
    side are taken to carry at most one token and to have distinct
    resolved names. The two examples of the specification follow. *)
Theorem combine_override_and_append :
  (forall base_m over_m k bk bl ol,
     NoDup (map key_resolve (keys over_m)) ->
     forallb single_token (keys over_m) = true ->
     In (k, VList ol) over_m ->
     found (key_resolve k) base_m = Some (bk, VList bl) ->
     dict_get (combine base_m over_m) (key_resolve k) =
       Some (VList (if PyStr.startswith k TOKEN then bl ++ ol else ol))) /\
  combine [("a", VList [VInt 1; VInt 2])] [("a", VList [VInt 3])]
    = [("a", VList [VInt 3])] /\
  combine [("a", VList [VInt 1; VInt 2])] [("+=a", VList [VInt 3])]
    = [("a", VList [VInt 1; VInt 2; VInt 3])].
Proof.
  split; [|split; reflexivity].
  intros base_m over_m k bk bl ol Hnd Hst Hin Hbase.
  assert (Hfix : forall kv, In kv over_m ->
            key_resolve (key_resolve (fst kv)) = key_resolve (fst kv)).
  { intros kv Hkv. rewrite forallb_forall in Hst.
    apply removeprefix_without_prefix, negb_true_iff.
    apply (Hst (fst kv)). apply in_map. exact Hkv. }
  destruct (in_split _ _ Hin) as (o1 & o2 & ->).
  unfold keys in Hnd. rewrite !map_app in Hnd. simpl in Hnd.
  pose proof (NoDup_remove_2 _ _ _ Hnd) as Hout.
  assert (Hothers : forall o, incl o (o1 ++ (k, VList ol) :: o2) ->
            (forall kv, In kv o -> In (key_resolve (fst kv))
               (map key_resolve (map fst o1) ++ map key_resolve (map fst o2))) ->
            Forall (fun kv => key_resolve (fst kv) <> key_resolve k /\
                      key_resolve (key_resolve (fst kv)) = key_resolve (fst kv)) o).
  { intros o Hincl Hmem. apply Forall_forall. intros kv Hkv. split.
    - intros Heq. apply Hout. rewrite <- Heq. apply Hmem, Hkv.
    - apply Hfix, Hincl, Hkv. }
  assert (Hk : key_resolve (key_resolve k) = key_resolve k).
  { apply (Hfix (k, VList ol)), in_or_app. right. left. reflexivity. }
  assert (H1 : Forall (fun kv => key_resolve (fst kv) <> key_resolve k /\
                 key_resolve (key_resolve (fst kv)) = key_resolve (fst kv)) o1).
  { apply Hothers.
    - intros x Hx. apply in_or_app. left. exact Hx.
    - intros kv Hkv. apply in_or_app. left. apply in_map, in_map, Hkv. }
  assert (H2 : Forall (fun kv => key_resolve (fst kv) <> key_resolve k /\
                 key_resolve (key_resolve (fst kv)) = key_resolve (fst kv)) o2).
  { apply Hothers.
    - intros x Hx. apply in_or_app. right. right. exact Hx.
    - intros kv Hkv. apply in_or_app. right. apply in_map, in_map, Hkv. }
  rewrite combine_fold, fold_left_app.
  apply found_get; [exact Hk|].
  change (fold_left mstep ((k, VList ol) :: o2) (fold_left mstep o1 base_m))
    with (fold_left mstep o2 (mstep (fold_left mstep o1 base_m) (k, VList ol))).
  rewrite (fold_mstep_other _ o2 _ H2).
  apply mstep_same with (bk := bk); [exact Hk|].
  rewrite (fold_mstep_other _ o1 _ H1). exact Hbase.
Qed.

End Combine.

Lemma combine_override_and_append_witness :
  dict_get (combine managers_base managers_over) "requires" =
    Some (VList [VStr "python-3.9"; VStr "maya"]).
Proof.
  destruct combine_override_and_append as [Hgeneral _].
  apply (Hgeneral managers_base managers_over "+=requires" "requires"
           [VStr "python-3.9"] [VStr "maya"]).
  - vm_compute. repeat constructor; simpl; intuition discriminate.
  - reflexivity.
  - left. reflexivity.
  - reflexivity.
Defined.

(** ** The profile repository *)

Section Repository.

Lemma filterM_total {A : Type} (f : A -> outcome bool) (l : list A) :
  Forall (fun x => exists b, f x = Ret b) l -> exists r, filterM f l = Ret r.
Proof.
  induction l as [|x rest IH]; intros Hall; simpl; [eauto|].
  inversion Hall as [|? ? [b Hb] Hrest]; subst.
  destruct (IH Hrest) as [r Hr]. rewrite Hb, Hr. simpl. eauto.
Qed.

Lemma filterM_Ret_inv {A : Type} (f : A -> outcome bool) (l : list A) r :
  filterM f l = Ret r -> Forall (fun x => exists b, f x = Ret b) l.
Proof.
  revert r. induction l as [|x rest IH]; intros r; simpl; [constructor|].
  destruct (f x) as [b| | |] eqn:Hb; simpl; try discriminate.
  destruct (filterM f rest) as [r'| | |] eqn:Hr; simpl; try discriminate.
  intros _. constructor; [eauto | eapply IH; reflexivity].
Qed.

(** Whether the scan of the locations succeeds does not depend on the
    identifier that is looked for. *)
Lemma get_profile_file_path_total w locs i j l :
  get_profile_file_path w i locs = Ret l ->
  exists l', get_profile_file_path w j locs = Ret l'.
Proof.
  unfold get_profile_file_path.
  destruct (get_all_profile_file_paths w locs) as [paths| | |]; simpl;
    try discriminate.
  intros H. apply filterM_Ret_inv in H. apply filterM_total.
  eapply Forall_impl; [|exact H].
  intros p [b Hb]. simpl in Hb.
  destruct (_get_profile_identifier w p) as [x| | |]; simpl in *;
    try discriminate.
  eauto.
Qed.

Lemma lookup_write_file fs p d : lookup_file (write_file fs p d) p = Some d.
Proof.
  assert (Hrefl : path_eqb p p = true).
  { unfold path_eqb. destruct (list_eq_dec string_dec p p); congruence. }
  induction fs as [|[q d'] rest IH]; simpl.
  - rewrite Hrefl. reflexivity.
  - destruct (path_eqb q p) eqn:Hq; simpl.
    + rewrite Hrefl. reflexivity.
    + rewrite Hq. exact IH.
Qed.

Lemma yaml_load_write_text w p d : yaml_load (write_text w p d) p = Ret d.
Proof. unfold yaml_load. simpl. rewrite lookup_write_file. reflexivity. Qed.

Lemma magic_header_version :
  PyStr.int (PyStr.split_last ":" magic_header) = Some KENV_PROFILE_VERSION.
Proof. reflexivity. Qed.

(** C6. A profile file whose magic header ends in an integer that is not
    the supported version is refused with [SyntaxError], whatever else
    the file holds and wherever it is read from. *)
Theorem read_profile_version_mismatch
    fuel w file_path profile_locations asdict magic profile_version :
  yaml_load w file_path = Ret asdict ->
  doc_magic asdict = Some magic ->
  PyStr.int (PyStr.split_last ":" magic) = Some profile_version ->
  profile_version <> KENV_PROFILE_VERSION ->
  read_profile_from_file (S fuel) w file_path profile_locations =
    Raise (SyntaxError (version_mismatch_message profile_version)).
Proof.
  intros Hload Hmagic Hint Hne. simpl.
  rewrite Hload. simpl. rewrite Hmagic. simpl. rewrite Hint.
  destruct (Z.eqb_spec profile_version KENV_PROFILE_VERSION);
    [contradiction | reflexivity].
Qed.

End Repository.

Lemma read_profile_version_mismatch_witness :
  read_profile_from_file 1 world_future future_file searched =
    Raise (SyntaxError
      "Cannot read profile with version <999> while current API version is <2>.").
Proof.
  apply (read_profile_version_mismatch 0 world_future future_file searched
           (mkDocument (Some "kloch_profile:999") (Some "future") (Some "1")
                       None (Some []))
           "kloch_profile:999" 999%Z).
  - reflexivity.
  - reflexivity.
  - reflexivity.
  - discriminate.
Defined.

Section Lookup.

Lemma read_profile_base_lookup
    fuel w file_path locs asdict magic base_name base_paths :
  yaml_load w file_path = Ret asdict ->
  doc_magic asdict = Some magic ->
  PyStr.int (PyStr.split_last ":" magic) = Some KENV_PROFILE_VERSION ->
  doc_base asdict = Some base_name ->
  base_name <> "" ->
  get_profile_file_path w base_name locs = Ret base_paths ->
  read_profile_from_file (S fuel) w file_path locs =
    (base_profile <-
       (if (2 <=? List.length base_paths)%nat then
          Raise (ValueError
                   (multiple_base_message base_name file_path base_paths))
        else
          match base_paths with
          | [] => Raise (ValueError (no_base_message base_name file_path))
          | base_path :: _ =>
              b <- read_profile_from_file fuel w base_path None ;;
              Ret (Some b)
          end) ;;
     launchers <- getitem "launchers" (doc_launchers asdict) ;;
     profile <-
       from_dict
         (mk_serialized_profile (doc_identifier asdict) (doc_version asdict)
            base_profile (Some launchers)) ;;
     Ret profile)%outcome.
Proof.
  intros Hload Hmagic Hint Hbase Hname Hpaths. simpl.
  rewrite Hload. simpl. rewrite Hmagic. simpl. rewrite Hint. simpl.
  rewrite Hbase.
  destruct base_name as [|c rest]; [contradiction|].
  rewrite Hpaths. reflexivity.
Qed.


End Lookup.



(** ** Writing *)

Section Writing.

Lemma serialize_profile_root w p locs :
  base p = None ->
  serialize_profile w p locs =
    Ret (mkDocument (Some magic_header) (Some (identifier p))
           (Some (version p)) None (Some (managers p))).
Proof. unfold serialize_profile, to_dict. simpl. intros ->. reflexivity. Qed.

Lemma serialize_profile_derived w p b locs d :
  base p = Some b ->
  serialize_profile w p locs = Ret d ->
  d = mkDocument (Some magic_header) (Some (identifier p))
        (Some (version p)) (Some (identifier b)) (Some (managers p)).
Proof.
  unfold serialize_profile, to_dict. simpl. intros ->.
  destruct (get_profile_file_path w (identifier b) locs) as [[|x xs]| | |];
    simpl; try discriminate.
  intros H; injection H as <-. reflexivity.
Qed.

Lemma write_profile_to_file_inv w p file_path locs check w' :
  write_profile_to_file w p file_path locs check = Ret w' ->
  exists d, serialize_profile w p locs = Ret d /\ w' = write_text w file_path d.
Proof.
  unfold write_profile_to_file.
  match goal with
  | |- (_ <- ?c ;; _)%outcome = _ -> _ => destruct c as [[]| | |]
  end; simpl; try discriminate.
  destruct (serialize_profile w p locs) as [d| | |]; simpl; try discriminate.
  intros H; injection H as <-. eauto.
Qed.

(** What the check of the identifier does: it raises when some file declares
    the identifier and the target is none of the files that do. *)
Lemma write_profile_to_file_check w p file_path locs paths :
  get_profile_file_path w (identifier p) locs = Ret paths ->
  write_profile_to_file w p file_path locs true =
    match paths with
    | [] => serialized <- serialize_profile w p locs ;;
            Ret (write_text w file_path serialized)
    | _ :: _ =>
        if path_in file_path paths then
          serialized <- serialize_profile w p locs ;;
          Ret (write_text w file_path serialized)
        else Raise (ValueError (duplicate_identifier_message (identifier p)))
    end.
Proof.
  intros Hpaths. unfold write_profile_to_file. rewrite Hpaths. cbn [bind].
  destruct paths as [|x xs]; [reflexivity|].
  destruct (path_in file_path (x :: xs)); reflexivity.
Qed.



End Writing.




(** C7. With two files that already declare the identifier, writing a
    profile of that identifier over one of them passes the check: no error
    is raised, and both files declare the identifier afterwards. *)
Lemma write_profile_keeps_duplicate :
  exists w',
    write_profile_to_file world_dup (mkEnvironmentProfile "dup" "3" None [])
      dup_one searched true = Ret w' /\
    get_profile_file_path w' "dup" searched = Ret [dup_one; dup_two].
Proof.
  eexists. split; reflexivity.
Qed.

(* ===================================================================== *)
(** * Further properties of the code *)
(* ===================================================================== *)

(** ** Search locations *)

Section Locations.

Lemma path_eqb_eq (p q : Path) : path_eqb p q = true <-> p = q.
Proof.
  unfold path_eqb. destruct (list_eq_dec string_dec p q); split;
    congruence.
Qed.

Lemma path_in_In (p : Path) (l : list Path) : path_in p l = true <-> In p l.
Proof.
  unfold path_in. rewrite existsb_exists. split.
  - intros (q & Hq & Heq). apply path_eqb_eq in Heq. subst. exact Hq.
  - intros Hin. exists p. split; [exact Hin | apply path_eqb_eq; reflexivity].
Qed.

Lemma get_profile_locations_app (w : World) :
  get_profile_locations w = environ_locations w ++ _PROFILE_LOCATIONS_INTERNAL w.
Proof.
  unfold get_profile_locations.
  destruct (environ_locations w), (_PROFILE_LOCATIONS_INTERNAL w); reflexivity.
Qed.

Lemma add_profile_location_internal (w : World) (location : Path) :
  _PROFILE_LOCATIONS_INTERNAL (add_profile_location w location) =
    if path_in location (_PROFILE_LOCATIONS_INTERNAL w)
    then _PROFILE_LOCATIONS_INTERNAL w
    else _PROFILE_LOCATIONS_INTERNAL w ++ [location].
Proof.
  unfold add_profile_location.
  destruct (path_in location (_PROFILE_LOCATIONS_INTERNAL w)); reflexivity.
Qed.

Lemma add_profile_location_frame (w : World) (location : Path) :
  files (add_profile_location w location) = files w /\
  environ_locations (add_profile_location w location) = environ_locations w.
Proof.
  unfold add_profile_location.
  destruct (path_in location (_PROFILE_LOCATIONS_INTERNAL w)); split; reflexivity.
Qed.

Lemma add_profile_location_In (w : World) (location p : Path) :
  In p (_PROFILE_LOCATIONS_INTERNAL (add_profile_location w location)) <->
  In p (_PROFILE_LOCATIONS_INTERNAL w) \/ p = location.
Proof.
  rewrite add_profile_location_internal.
  destruct (path_in location (_PROFILE_LOCATIONS_INTERNAL w)) eqn:Hin.
  - apply path_in_In in Hin. split; [auto | intros [H | ->]; assumption].
  - rewrite in_app_iff. simpl. intuition congruence.
Qed.

Lemma add_profile_location_NoDup (w : World) (location : Path) :
  NoDup (_PROFILE_LOCATIONS_INTERNAL w) ->
  NoDup (_PROFILE_LOCATIONS_INTERNAL (add_profile_location w location)).
Proof.
  intros Hnd. rewrite add_profile_location_internal.
  destruct (path_in location (_PROFILE_LOCATIONS_INTERNAL w)) eqn:Hin;
    [exact Hnd|].
  apply NoDup_app; [exact Hnd | repeat constructor; intros [] |].
  intros x Hx [<-|[]]. apply path_in_In in Hx. congruence.
Qed.

(** X1. [add_profile_location] registers a location once: afterwards the
    location is in the internal list, a location that was there already
    leaves the world as it is, nothing that was registered is lost, and a
    list without repetition stays without repetition. The files and the
    environment are not touched. *)
Theorem add_profile_location_registers_once (w : World) (location : Path) :
  let w' := add_profile_location w location in
  In location (_PROFILE_LOCATIONS_INTERNAL w') /\
  (In location (_PROFILE_LOCATIONS_INTERNAL w) -> w' = w) /\
  (~ In location (_PROFILE_LOCATIONS_INTERNAL w) ->
   _PROFILE_LOCATIONS_INTERNAL w' = _PROFILE_LOCATIONS_INTERNAL w ++ [location]) /\
  (NoDup (_PROFILE_LOCATIONS_INTERNAL w) -> NoDup (_PROFILE_LOCATIONS_INTERNAL w')) /\
  add_profile_location w' location = w' /\
  files w' = files w /\ environ_locations w' = environ_locations w.
Proof.
  unfold add_profile_location.
  destruct (path_in location (_PROFILE_LOCATIONS_INTERNAL w)) eqn:Hin; simpl.
  - apply path_in_In in Hin. rewrite (proj2 (path_in_In _ _) Hin).
    repeat split; auto. intros Hout. contradiction.
  - assert (Hout : ~ In location (_PROFILE_LOCATIONS_INTERNAL w)).
    { intros H. apply path_in_In in H. congruence. }
    assert (Hnow : path_in location (_PROFILE_LOCATIONS_INTERNAL w ++ [location])
                   = true).
    { apply path_in_In, in_or_app. right. left. reflexivity. }
    rewrite Hnow.
    repeat split; auto.
    + apply in_or_app. right. left. reflexivity.
    + intros H. contradiction.
    + intros Hnd. apply NoDup_app; [exact Hnd | repeat constructor; intros [] |].
      intros x Hx [<-|[]]. exact (Hout Hx).
Qed.

(** X2. A registered location is searched after the locations of the
    environment variable: the default locations are those of the variable
    followed by the registered ones, a new location goes last, and
    locations passed explicitly (a non-empty list) are searched instead of
    all of them. *)
Theorem registered_locations_searched_last (w : World) (location : Path) :
  get_profile_locations w =
    environ_locations w ++ _PROFILE_LOCATIONS_INTERNAL w /\
  In location (get_profile_locations (add_profile_location w location)) /\
  (~ In location (_PROFILE_LOCATIONS_INTERNAL w) ->
   get_profile_locations (add_profile_location w location) =
     get_profile_locations w ++ [location]) /\
  (forall first others,
     effective_locations (add_profile_location w location)
       (Some (first :: others)) = first :: others) /\
  effective_locations (add_profile_location w location) (Some []) =
    get_profile_locations (add_profile_location w location).
Proof.
  destruct (add_profile_location_frame w location) as [_ Henv].
  split; [apply get_profile_locations_app|].
  split.
  - rewrite get_profile_locations_app. apply in_or_app. right.
    apply add_profile_location_In. right. reflexivity.
  - split; [|split; reflexivity].
    intros Hout. rewrite !get_profile_locations_app, Henv.
    rewrite add_profile_location_internal.
    destruct (path_in location (_PROFILE_LOCATIONS_INTERNAL w)) eqn:Hin.
    + apply path_in_In in Hin. contradiction.
    + rewrite app_assoc. reflexivity.
Qed.

(** X3. The start of the program registers every location given on the
    command line: afterwards the registered locations are exactly the ones
    registered before and the ones given, without repetition if there was
    none before, and the files and the environment are as they were. *)
Theorem main_registers_locations (profile_paths : list Path) : forall w,
  let w' := main_add_profile_locations w profile_paths in
  (forall p, In p (_PROFILE_LOCATIONS_INTERNAL w') <->
             In p (_PROFILE_LOCATIONS_INTERNAL w) \/ In p profile_paths) /\
  (NoDup (_PROFILE_LOCATIONS_INTERNAL w) ->
   NoDup (_PROFILE_LOCATIONS_INTERNAL w')) /\
  files w' = files w /\ environ_locations w' = environ_locations w.
Proof.
  unfold main_add_profile_locations.
  induction profile_paths as [|x rest IH]; intros w; simpl.
  - repeat split; auto. intros [H | []]. exact H.
  - specialize (IH (add_profile_location w x)).
    destruct IH as (Hin & Hnd & Hfiles & Henv).
    destruct (add_profile_location_frame w x) as [Hf He].
    split; [|split; [|split]].
    + intros p. rewrite Hin, add_profile_location_In. intuition congruence.
    + intros H. apply Hnd, add_profile_location_NoDup, H.
    + congruence.
    + congruence.
Qed.

End Locations.

(** ** The scan of the locations *)

Section Scan.

Lemma lookup_file_of_In fs (p : Path) :
  In p (map fst fs) -> exists d, lookup_file fs p = Some d.
Proof.
  induction fs as [|[q d] rest IH]; simpl; [contradiction|].
  destruct (path_eqb q p) eqn:Hq; [eauto|].
  intros [Heq | Hin]; [|exact (IH Hin)].
  subst. assert (path_eqb p p = true) by (apply path_eqb_eq; reflexivity).
  congruence.
Qed.

Lemma lookup_file_In fs (p : Path) d :
  lookup_file fs p = Some d -> In (p, d) fs.
Proof.
  induction fs as [|[q d'] rest IH]; simpl; [discriminate|].
  destruct (path_eqb q p) eqn:Hq.
  - apply path_eqb_eq in Hq. intros H; injection H as <-. subst. auto.
  - intros H. right. exact (IH H).
Qed.

Lemma glob_yml_In (w : World) (location p : Path) :
  In p (glob_yml w location) <->
  In p (map fst (files w)) /\ parent p = location /\
  PyStr.endswith (name p) ".yml" = true.
Proof.
  unfold glob_yml. rewrite !in_map_iff. split.
  - intros ([q d] & <- & Hf). apply filter_In in Hf. destruct Hf as [Hin Hok].
    apply andb_true_iff in Hok. destruct Hok as [Hpar Hend].
    apply path_eqb_eq in Hpar. simpl in *.
    split; [exists (q, d); auto | auto].
  - intros (([q d] & <- & Hin) & Hpar & Hend). exists (q, d).
    split; [reflexivity|]. apply filter_In. split; [exact Hin|].
    apply andb_true_iff. split; [apply path_eqb_eq; exact Hpar | exact Hend].
Qed.

Lemma last_dot_suffix_endswith (s r : string) :
  last_dot_suffix s = Some r -> PyStr.endswith s r = true.
Proof.
  revert r. induction s as [|c s IH]; intros r H; simpl in H; [discriminate|].
  cbn [PyStr.endswith].
  destruct (last_dot_suffix s) as [r'|].
  - injection H as <-. rewrite (IH r' eq_refl). apply orb_true_r.
  - destruct (Ascii.eqb c "."); [|discriminate].
    injection H as <-. rewrite String.eqb_refl. reflexivity.
Qed.

Lemma suffix_yml_endswith (p : Path) :
  suffix p = ".yml" -> PyStr.endswith (name p) ".yml" = true.
Proof.
  unfold suffix. destruct (name p) as [|c rest]; [discriminate|].
  destruct (last_dot_suffix rest) as [r|] eqn:Hr; [|discriminate].
  destruct (String.length r =? 1)%nat; [discriminate|].
  intros ->. cbn [PyStr.endswith].
  rewrite (last_dot_suffix_endswith _ _ Hr). apply orb_true_r.
Qed.

Lemma startswith_append (p tail : string) :
  PyStr.startswith (p ++ tail) p = true.
Proof.
  unfold PyStr.startswith.
  assert (H : PyStr.strip_prefix p (p ++ tail) = Some tail).
  { induction p as [|c p IH]; simpl; [reflexivity|].
    rewrite Ascii.eqb_refl. exact IH. }
  rewrite H. reflexivity.
Qed.

Lemma filterM_pure {A : Type} (f : A -> outcome bool) (g : A -> bool) l :
  (forall x, In x l -> f x = Ret (g x)) -> filterM f l = Ret (filter g l).
Proof.
  induction l as [|x rest IH]; intros H; simpl; [reflexivity|].
  rewrite (H x (or_introl eq_refl)). simpl.
  rewrite IH by (intros y Hy; apply H; right; exact Hy). simpl.
  destruct (g x); reflexivity.
Qed.

Lemma filterM_raises {A : Type} (f : A -> outcome bool) (g : A -> bool) e l :
  (forall x, In x l -> f x = Ret (g x) \/ f x = Raise e) ->
  (exists x, In x l /\ f x = Raise e) ->
  filterM f l = Raise e.
Proof.
  induction l as [|x rest IH]; intros Hall (y & Hy & Hfy); [contradiction|].
  simpl. destruct (Hall x (or_introl eq_refl)) as [Hx | Hx]; rewrite Hx; simpl;
    [|reflexivity].
  rewrite IH; [reflexivity | intros z Hz; apply Hall; right; exact Hz |].
  destruct Hy as [<- | Hy]; [congruence | eauto].
Qed.

Lemma is_file_environment_profile_pure (w : World) (p : Path) :
  In p (map fst (files w)) ->
  is_file_environment_profile w p = Ret (is_profile_path w p).
Proof.
  intros Hin. destruct (lookup_file_of_In _ _ Hin) as [d Hd].
  unfold is_file_environment_profile, is_profile_path, yaml_load.
  rewrite Hd. destruct (String.eqb (suffix p) ".yml"); simpl; [|reflexivity].
  destruct (doc_magic d); reflexivity.
Qed.

Lemma get_all_profile_file_paths_pure (w : World) locs :
  get_all_profile_file_paths w locs =
    Ret (filter (is_profile_path w) (candidates w locs)).
Proof.
  unfold get_all_profile_file_paths. apply filterM_pure.
  intros p Hp. apply is_file_environment_profile_pure.
  apply in_flat_map in Hp. destruct Hp as (loc & _ & Hp).
  apply glob_yml_In in Hp. tauto.
Qed.

Lemma is_profile_path_lookup (w : World) (p : Path) :
  is_profile_path w p = true ->
  exists d magic,
    lookup_file (files w) p = Some d /\ suffix p = ".yml" /\
    doc_magic d = Some magic /\
    PyStr.startswith magic KENV_PROFILE_MAGIC = true.
Proof.
  unfold is_profile_path. intros H. apply andb_true_iff in H.
  destruct H as [Hs Hm]. apply String.eqb_eq in Hs.
  destruct (lookup_file (files w) p) as [d|]; [|discriminate].
  destruct (doc_magic d) as [magic|] eqn:Hmagic; [|discriminate].
  exists d, magic. repeat split; auto.
Qed.

(** The test of one path in [get_profile_file_path]. *)
Lemma identifier_test_pure (w : World) (profile_id : string) (p : Path) :
  is_profile_path w p = true ->
  (i <- _get_profile_identifier w p ;; Ret (String.eqb i profile_id)) =
    if has_identifier w p then Ret (declares w profile_id p)
    else Raise (KeyError "identifier").
Proof.
  intros Hp. destruct (is_profile_path_lookup _ _ Hp) as (d & m & Hd & _).
  unfold _get_profile_identifier, yaml_load, has_identifier, declares.
  rewrite Hd. simpl. destruct (doc_identifier d); reflexivity.
Qed.

Lemma get_profile_file_path_pure (w : World) (profile_id : string) locs :
  get_profile_file_path w profile_id locs =
    let all := filter (is_profile_path w) (candidates w locs) in
    if forallb (has_identifier w) all
    then Ret (filter (declares w profile_id) all)
    else Raise (KeyError "identifier").
Proof.
  unfold get_profile_file_path. rewrite get_all_profile_file_paths_pure.
  cbn [bind]. set (all := filter (is_profile_path w) (candidates w locs)).
  assert (Hall : forall p, In p all -> is_profile_path w p = true).
  { intros p Hp. apply filter_In in Hp. tauto. }
  cbv zeta. destruct (forallb (has_identifier w) all) eqn:Hids.
  - apply filterM_pure. intros p Hp.
    rewrite (identifier_test_pure w profile_id p (Hall p Hp)).
    rewrite forallb_forall in Hids. rewrite (Hids p Hp). reflexivity.
  - apply filterM_raises with (g := declares w profile_id).
    + intros p Hp. rewrite (identifier_test_pure w profile_id p (Hall p Hp)).
      destruct (has_identifier w p); auto.
    + assert (Hex : exists p, In p all /\ has_identifier w p = false).
      { clear Hall. induction all as [|q rest IH]; simpl in Hids; [discriminate|].
        destruct (has_identifier w q) eqn:Hq.
        - destruct (IH Hids) as (p & Hp & Hf). exists p. split; [right|]; auto.
        - exists q. split; [left|]; auto. }
      destruct Hex as (p & Hp & Hf). exists p. split; [exact Hp|].
      rewrite (identifier_test_pure w profile_id p (Hall p Hp)), Hf.
      reflexivity.
Qed.

End Scan.

Section ScanProperties.

(** X4. [is_file_environment_profile] decides by the suffix and by the
    start of the magic text only. A path whose suffix is not [.yml] is
    refused without the file being opened, even when there is no such
    file; a missing [.yml] file raises [FileNotFoundError]; a [.yml] file
    is accepted when its magic text starts with the magic word, whatever
    follows it (a version or none), and refused when the key is missing. *)
Theorem is_file_environment_profile_cases (w : World) (p : Path) :
  (suffix p <> ".yml" -> is_file_environment_profile w p = Ret false) /\
  (suffix p = ".yml" -> lookup_file (files w) p = None ->
   is_file_environment_profile w p = Raise (FileNotFoundError p)) /\
  (forall d tail,
     suffix p = ".yml" -> lookup_file (files w) p = Some d ->
     doc_magic d = Some (KENV_PROFILE_MAGIC ++ tail)%string ->
     is_file_environment_profile w p = Ret true) /\
  (forall d,
     suffix p = ".yml" -> lookup_file (files w) p = Some d ->
     doc_magic d = None ->
     is_file_environment_profile w p = Ret false).
Proof.
  unfold is_file_environment_profile, yaml_load.
  split; [|split; [|split]].
  - intros Hs. apply String.eqb_neq in Hs. rewrite Hs. reflexivity.
  - intros -> ->. reflexivity.
  - intros d tail -> -> Hm. simpl. rewrite Hm.
    rewrite startswith_append. reflexivity.
  - intros d -> -> Hm. simpl. rewrite Hm. reflexivity.
Qed.


Lemma declares_lookup (w : World) (profile_id : string) (p : Path) :
  declares w profile_id p = true <->
  exists d, lookup_file (files w) p = Some d /\
            doc_identifier d = Some profile_id.
Proof.
  unfold declares. split.
  - destruct (lookup_file (files w) p) as [d|]; [|discriminate].
    destruct (doc_identifier d) as [i|] eqn:Hi; [|discriminate].
    intros H. apply String.eqb_eq in H. subst. eauto.
  - intros (d & -> & ->). apply String.eqb_refl.
Qed.

(** X6. When [get_profile_file_path] returns, it returns the profile files
    of the locations that declare the identifier, all of them and in the
    order of the scan; and then every profile file of the locations has an
    identifier. *)
Theorem get_profile_file_path_exact (w : World) (profile_id : string) locs
    all l :
  get_all_profile_file_paths w locs = Ret all ->
  get_profile_file_path w profile_id locs = Ret l ->
  l = filter (declares w profile_id) all /\
  (forall p,
     In p l <->
     In p all /\
     exists d, lookup_file (files w) p = Some d /\
               doc_identifier d = Some profile_id) /\
  (forall p, In p all ->
     exists d i, lookup_file (files w) p = Some d /\ doc_identifier d = Some i).
Proof.
  rewrite get_all_profile_file_paths_pure, get_profile_file_path_pure.
  cbv zeta. intros Hall. injection Hall as <-.
  destruct (forallb (has_identifier w)
              (filter (is_profile_path w) (candidates w locs))) eqn:Hids;
    [|discriminate].
  intros H; injection H as <-.
  split; [reflexivity|]. split.
  - intros p. rewrite filter_In, declares_lookup. reflexivity.
  - intros p Hp. rewrite forallb_forall in Hids. specialize (Hids p Hp).
    unfold has_identifier in Hids.
    destruct (lookup_file (files w) p) as [d|]; [|discriminate].
    destruct (doc_identifier d) as [i|] eqn:Hi; [|discriminate]. eauto.
Qed.

(** X7. One profile file without the key [identifier] in the locations
    makes every lookup by identifier raise [KeyError], whatever identifier
    is looked for. *)
Theorem get_profile_file_path_needs_identifiers (w : World) locs all p d :
  get_all_profile_file_paths w locs = Ret all ->
  In p all ->
  lookup_file (files w) p = Some d ->
  doc_identifier d = None ->
  forall profile_id,
    get_profile_file_path w profile_id locs = Raise (KeyError "identifier").
Proof.
  rewrite get_all_profile_file_paths_pure. intros Hall. injection Hall as <-.
  intros Hp Hd Hi profile_id. rewrite get_profile_file_path_pure. cbv zeta.
  destruct (forallb (has_identifier w)
              (filter (is_profile_path w) (candidates w locs))) eqn:Hids;
    [|reflexivity].
  rewrite forallb_forall in Hids. specialize (Hids p Hp).
  unfold has_identifier in Hids. rewrite Hd, Hi in Hids. discriminate.
Qed.

End ScanProperties.

Lemma is_file_environment_profile_cases_witness :
  is_file_environment_profile world_odd notes_file = Ret false /\
  is_file_environment_profile world_odd ["/"; "profiles"; "absent.yml"] =
    Raise (FileNotFoundError ["/"; "profiles"; "absent.yml"]) /\
  is_file_environment_profile world_odd versionless_file = Ret true.
Proof.
  split; [|split].
  - apply (is_file_environment_profile_cases world_odd notes_file).
    discriminate.
  - apply (is_file_environment_profile_cases world_odd
             ["/"; "profiles"; "absent.yml"]); reflexivity.
  - destruct (is_file_environment_profile_cases world_odd versionless_file)
      as (_ & _ & Haccept & _).
    apply (Haccept (mkDocument (Some "kloch_profile") (Some "versionless")
                      (Some "1") None (Some [])) ""); reflexivity.
Defined.

Lemma get_profile_file_path_exact_witness :
  [dup_one; dup_two] = filter (declares world_dup "dup") [dup_one; dup_two].
Proof.
  apply (get_profile_file_path_exact world_dup "dup" searched
           [dup_one; dup_two] [dup_one; dup_two]); reflexivity.
Defined.

Lemma get_profile_file_path_needs_identifiers_witness :
  get_profile_file_path world_odd "versionless" searched =
    Raise (KeyError "identifier").
Proof.
  apply (get_profile_file_path_needs_identifiers world_odd searched
           [versionless_file; nameless_file] nameless_file
           (mkDocument (Some magic_header) None (Some "1") None (Some [])));
    try reflexivity.
  right. left. reflexivity.
Defined.

(** ** Reading *)

Section Reading.

(** What [read_profile_from_file] does once the header is accepted and the
    file names no base. *)
Lemma read_profile_without_base fuel w file_path locs asdict magic :
  yaml_load w file_path = Ret asdict ->
  doc_magic asdict = Some magic ->
  PyStr.int (PyStr.split_last ":" magic) = Some KENV_PROFILE_VERSION ->
  doc_base asdict = None ->
  read_profile_from_file (S fuel) w file_path locs =
    (launchers <- getitem "launchers" (doc_launchers asdict) ;;
     from_dict
       (mk_serialized_profile (doc_identifier asdict) (doc_version asdict)
          None (Some launchers)))%outcome.
Proof.
  intros Hload Hmagic Hint Hbase. simpl.
  rewrite Hload. simpl. rewrite Hmagic. simpl. rewrite Hint. simpl.
  rewrite Hbase. simpl.
  destruct (doc_launchers asdict); simpl; [|reflexivity].
  destruct (from_dict _); reflexivity.
Qed.


(** X9. A file that names no base is read by its content alone: whatever
    its path (no suffix is asked for), whatever precedes the last colon of
    its magic text (the magic word is not compared), and whatever the
    locations, the profile holds the identifier, the version and the
    launchers of the file and has no base. *)
Theorem read_profile_without_base_returns fuel w file_path locs d magic i v l :
  lookup_file (files w) file_path = Some d ->
  doc_magic d = Some magic ->
  PyStr.int (PyStr.split_last ":" magic) = Some KENV_PROFILE_VERSION ->
  doc_base d = None ->
  doc_identifier d = Some i -> doc_version d = Some v ->
  doc_launchers d = Some l ->
  read_profile_from_file (S fuel) w file_path locs =
    Ret (mkEnvironmentProfile i v None l).
Proof.
  intros Hd Hm Hint Hbase Hi Hv Hl.
  assert (Hload : yaml_load w file_path = Ret d)
    by (unfold yaml_load; rewrite Hd; reflexivity).
  rewrite (read_profile_without_base fuel w file_path locs d magic
             Hload Hm Hint Hbase).
  unfold from_dict. rewrite Hl, Hi, Hv. reflexivity.
Qed.

Lemma read_profile_from_file_inv fuel : forall w file_path locs p,
  read_profile_from_file fuel w file_path locs = Ret p ->
  read_from w file_path p.
Proof.
  induction fuel as [|fuel IH]; intros w file_path locs p; [discriminate|].
  simpl. unfold yaml_load.
  destruct (lookup_file (files w) file_path) as [d|] eqn:Hd; [|discriminate].
  simpl. destruct (doc_magic d) as [magic|] eqn:Hm; [|discriminate]. simpl.
  destruct (PyStr.int (PyStr.split_last ":" magic)) as [pv|] eqn:Hint;
    [|discriminate].
  destruct (Z.eqb_spec pv KENV_PROFILE_VERSION) as [->|]; [|discriminate].
  simpl.
  assert (Hfinish : forall bp,
    (launchers <- getitem "launchers" (doc_launchers d) ;;
     profile <- from_dict
       (mk_serialized_profile (doc_identifier d) (doc_version d) bp
          (Some launchers)) ;;
     Ret profile)%outcome = Ret p ->
    doc_identifier d = Some (identifier p) /\
    doc_version d = Some (version p) /\
    doc_launchers d = Some (managers p) /\ base p = bp).
  { intros bp. unfold from_dict.
    destruct (doc_launchers d), (doc_identifier d), (doc_version d);
      simpl; try discriminate.
    intros H; injection H as <-. simpl. auto. }
  destruct (doc_base d) as [[|c rest]|] eqn:Hbase.
  - cbn [bind]. destruct (getitem "launchers" (doc_launchers d)); simpl;
      try discriminate.
    destruct (from_dict _); discriminate.
  - destruct (get_profile_file_path w (String c rest) locs)
      as [base_paths| | |] eqn:Hpaths; simpl; try discriminate.
    destruct base_paths as [|bp [|bp2 more]]; simpl; try discriminate.
    destruct (read_profile_from_file fuel w bp None) as [b| | |] eqn:Hb;
      simpl; try discriminate.
    intros H. destruct (Hfinish (Some b) H) as (Hi & Hv & Hl & Hbp).
    exists d, magic. repeat split; auto.
    rewrite Hbp, Hbase. simpl. f_equal.
    destruct (IH _ _ _ _ Hb) as (db & _ & Hdb & _ & _ & Hib & _).
    rewrite get_profile_file_path_pure in Hpaths. cbv zeta in Hpaths.
    destruct (forallb _ _); [|discriminate].
    injection Hpaths as Hpaths.
    assert (Hin : In bp [bp]) by (left; reflexivity).
    rewrite <- Hpaths in Hin. apply filter_In in Hin.
    destruct Hin as [_ Hdecl]. apply declares_lookup in Hdecl.
    destruct Hdecl as (d' & Hd' & Hi'). congruence.
  - cbn [bind]. intros H.
    assert (H' : (launchers <- getitem "launchers" (doc_launchers d) ;;
                  profile <- from_dict
                    (mk_serialized_profile (doc_identifier d) (doc_version d)
                       None (Some launchers)) ;;
                  Ret profile)%outcome = Ret p).
    { destruct (getitem "launchers" (doc_launchers d)); simpl in *;
        try discriminate.
      destruct (from_dict _); simpl in *; try discriminate. exact H. }
    destruct (Hfinish None H') as (Hi & Hv & Hl & Hbp).
    exists d, magic. repeat split; auto. rewrite Hbp, Hbase. reflexivity.
Qed.

(** X10. A profile that [read_profile_from_file] returns reflects its
    file: the file has the supported version, the identifier, version and
    launchers of the profile are those of the file, and the profile has a
    base exactly when the file names one, the identifier of that base
    being the name in the file. *)
Theorem read_profile_reflects_file fuel w file_path locs p :
  read_profile_from_file fuel w file_path locs = Ret p ->
  exists d magic,
    lookup_file (files w) file_path = Some d /\
    doc_magic d = Some magic /\
    PyStr.int (PyStr.split_last ":" magic) = Some KENV_PROFILE_VERSION /\
    doc_identifier d = Some (identifier p) /\
    doc_version d = Some (version p) /\
    doc_launchers d = Some (managers p) /\
    doc_base d = option_map identifier (base p).
Proof. apply read_profile_from_file_inv. Qed.

(** X11. [read_profile_from_id] returns a profile with the identifier that
    was asked for, read from a profile file of the locations. *)
Theorem read_profile_from_id_identifier fuel w profile_id locs p :
  read_profile_from_id fuel w profile_id locs = Ret p ->
  identifier p = profile_id /\
  exists all first,
    get_all_profile_file_paths w locs = Ret all /\ In first all /\
    read_profile_from_file fuel w first locs = Ret p.
Proof.
  unfold read_profile_from_id.
  rewrite get_profile_file_path_pure, get_all_profile_file_paths_pure.
  cbv zeta. destruct (forallb _ _); [|discriminate]. cbn [bind].
  destruct (filter (declares w profile_id) _) as [|first others] eqn:Hf;
    [discriminate|].
  intros Hread.
  assert (Hin : In first (first :: others)) by (left; reflexivity).
  rewrite <- Hf in Hin. apply filter_In in Hin. destruct Hin as [Hall Hdecl].
  split.
  - apply declares_lookup in Hdecl. destruct Hdecl as (d & Hd & Hi).
    destruct (read_profile_from_file_inv _ _ _ _ _ Hread)
      as (d' & _ & Hd' & _ & _ & Hi' & _).
    congruence.
  - eexists _, first. split; [reflexivity|]. split; [exact Hall | exact Hread].
Qed.

(** X12. There is no guard against a cycle of bases: when the base names
    of a set of files lead from each file to another file of the set (under
    the default locations, which the recursion uses), reading any of them
    returns nothing and raises nothing of its own, however deep the
    recursion is allowed to go. *)
Theorem read_profile_cycle_never_returns (w : World) (on_cycle : Path -> Prop) :
  (forall f, on_cycle f ->
     exists d magic base_name next,
       yaml_load w f = Ret d /\
       doc_magic d = Some magic /\
       PyStr.int (PyStr.split_last ":" magic) = Some KENV_PROFILE_VERSION /\
       doc_base d = Some base_name /\ base_name <> "" /\
       get_profile_file_path w base_name None = Ret [next] /\
       on_cycle next) ->
  forall fuel f, on_cycle f ->
    read_profile_from_file fuel w f None = OutOfFuel.
Proof.
  intros Hcycle fuel. induction fuel as [|fuel IH]; intros f Hf; [reflexivity|].
  destruct (Hcycle f Hf)
    as (d & magic & base_name & next & Hd & Hm & Hint & Hb & Hne & Hp & Hnext).
  rewrite (read_profile_base_lookup fuel w f None d magic base_name [next]
             Hd Hm Hint Hb Hne Hp).
  simpl. rewrite (IH next Hnext). reflexivity.
Qed.

(** X13. The locations passed to [read_profile_from_file] serve for the
    base of the file only: the base of that base is looked up in the
    default locations. When these do not hold it, the read raises the
    "no profile found" [ValueError] for the base of the base, whatever the
    locations passed hold. *)
Theorem read_profile_base_of_base_uses_default_locations
    fuel w file_path locs d magic base_name base_path
    bd bmagic grand_name :
  yaml_load w file_path = Ret d ->
  doc_magic d = Some magic ->
  PyStr.int (PyStr.split_last ":" magic) = Some KENV_PROFILE_VERSION ->
  doc_base d = Some base_name -> base_name <> "" ->
  get_profile_file_path w base_name locs = Ret [base_path] ->
  yaml_load w base_path = Ret bd ->
  doc_magic bd = Some bmagic ->
  PyStr.int (PyStr.split_last ":" bmagic) = Some KENV_PROFILE_VERSION ->
  doc_base bd = Some grand_name -> grand_name <> "" ->
  get_profile_file_path w grand_name None = Ret [] ->
  read_profile_from_file (S (S fuel)) w file_path locs =
    Raise (ValueError (no_base_message grand_name base_path)).
Proof.
  intros Hd Hm Hint Hb Hne Hp Hbd Hbm Hbint Hbb Hbne Hgp.
  rewrite (read_profile_base_lookup (S fuel) w file_path locs d magic
             base_name [base_path] Hd Hm Hint Hb Hne Hp).
  rewrite (read_profile_base_lookup fuel w base_path None bd bmagic
             grand_name [] Hbd Hbm Hbint Hbb Hbne Hgp).
  reflexivity.
Qed.

End Reading.


Lemma read_profile_without_base_returns_witness :
  read_profile_from_file 1 world_odd notes_file None =
    Ret (mkEnvironmentProfile "notes" "1" None []).
Proof.
  apply (read_profile_without_base_returns 0 world_odd notes_file None
           (mkDocument (Some "whatever:2") (Some "notes") (Some "1")
                       None (Some []))
           "whatever:2"); reflexivity.
Defined.

Lemma read_profile_reflects_file_witness :
  exists d magic,
    lookup_file (files world_base) base_file = Some d /\
    doc_magic d = Some magic /\
    PyStr.int (PyStr.split_last ":" magic) = Some KENV_PROFILE_VERSION /\
    doc_identifier d = Some "b" /\
    doc_version d = Some "1" /\
    doc_launchers d = Some managers_base /\
    doc_base d = None.
Proof.
  apply (read_profile_reflects_file 1 world_base base_file searched
           base_on_disk). reflexivity.
Defined.

Lemma read_profile_from_id_identifier_witness :
  identifier base_on_disk = "b" /\
  exists all first,
    get_all_profile_file_paths world_base searched = Ret all /\ In first all /\
    read_profile_from_file 1 world_base first searched = Ret base_on_disk.
Proof.
  apply (read_profile_from_id_identifier 1 world_base "b" searched
           base_on_disk). reflexivity.
Defined.

Lemma read_profile_cycle_never_returns_witness :
  read_profile_from_file 7 world_cycle ping_file None = OutOfFuel /\
  read_profile_from_file 100 world_cycle pong_file None = OutOfFuel.
Proof.
  assert (Hcycle : forall fuel f, f = ping_file \/ f = pong_file ->
            read_profile_from_file fuel world_cycle f None = OutOfFuel).
  { apply (read_profile_cycle_never_returns world_cycle
             (fun f => f = ping_file \/ f = pong_file)).
    intros f [-> | ->].
    - exists (profile_document "ping" "1" (Some "pong") []), magic_header,
        "pong", pong_file.
      repeat split; try reflexivity; [discriminate | right; reflexivity].
    - exists (profile_document "pong" "1" (Some "ping") []), magic_header,
        "ping", ping_file.
      repeat split; try reflexivity; [discriminate | left; reflexivity]. }
  split; apply Hcycle; [left | right]; reflexivity.
Defined.

Lemma read_profile_base_of_base_uses_default_locations_witness :
  get_profile_file_path world_chain "root" searched = Ret [root_file] /\
  read_profile_from_file 3 world_chain leaf_file searched =
    Raise (ValueError (no_base_message "root" middle_file)).
Proof.
  split; [reflexivity|].
  assert (Hmiddle : "middle" <> "") by discriminate.
  assert (Hroot : "root" <> "") by discriminate.
  exact (read_profile_base_of_base_uses_default_locations 1 world_chain
           leaf_file searched
           (profile_document "leaf" "1" (Some "middle") []) magic_header
           "middle" middle_file
           (profile_document "middle" "1" (Some "root") []) magic_header
           "root"
           eq_refl eq_refl eq_refl eq_refl Hmiddle eq_refl
           eq_refl eq_refl eq_refl eq_refl Hroot eq_refl).
Defined.

(** ** Writing, continued *)

Section WritingMore.

Lemma lookup_write_file_other fs (p q : Path) d :
  q <> p -> lookup_file (write_file fs p d) q = lookup_file fs q.
Proof.
  intros Hne. induction fs as [|[r d'] rest IH]; simpl.
  - destruct (path_eqb p q) eqn:Hpq; [|reflexivity].
    apply path_eqb_eq in Hpq. congruence.
  - destruct (path_eqb r p) eqn:Hrp; simpl.
    + apply path_eqb_eq in Hrp. subst r.
      destruct (path_eqb p q) eqn:Hpq; [|reflexivity].
      apply path_eqb_eq in Hpq. congruence.
    + destruct (path_eqb r q); [reflexivity | exact IH].
Qed.

Lemma paths_write_file fs (p q : Path) d :
  In q (map fst (write_file fs p d)) <-> In q (map fst fs) \/ q = p.
Proof.
  induction fs as [|[r d'] rest IH]; simpl.
  - intuition congruence.
  - destruct (path_eqb r p) eqn:Hrp; simpl.
    + apply path_eqb_eq in Hrp. subst r. intuition congruence.
    + rewrite IH. tauto.
Qed.

Lemma serialize_profile_document w p locs d :
  serialize_profile w p locs = Ret d ->
  d = mkDocument (Some magic_header) (Some (identifier p)) (Some (version p))
        (option_map identifier (base p)) (Some (managers p)).
Proof.
  destruct (base p) as [b|] eqn:Hb.
  - intros H. rewrite (serialize_profile_derived w p b locs d Hb H).
    reflexivity.
  - rewrite (serialize_profile_root w p locs Hb).
    intros H; injection H as <-. reflexivity.
Qed.

Lemma write_profile_changes_target_only_aux w p file_path locs check w' :
  write_profile_to_file w p file_path locs check = Ret w' ->
  lookup_file (files w') file_path =
    Some (mkDocument (Some magic_header) (Some (identifier p))
            (Some (version p)) (option_map identifier (base p))
            (Some (managers p))) /\
  (forall q, q <> file_path ->
     lookup_file (files w') q = lookup_file (files w) q) /\
  (forall q, In q (map fst (files w')) <->
             In q (map fst (files w)) \/ q = file_path) /\
  environ_locations w' = environ_locations w /\
  _PROFILE_LOCATIONS_INTERNAL w' = _PROFILE_LOCATIONS_INTERNAL w.
Proof.
  intros Hwrite.
  destruct (write_profile_to_file_inv _ _ _ _ _ _ Hwrite) as (d & Hser & ->).
  apply serialize_profile_document in Hser. subst d. simpl.
  split; [apply lookup_write_file|].
  split; [intros q Hq; apply lookup_write_file_other; exact Hq|].
  split; [intros q; apply paths_write_file|].
  split; reflexivity.
Qed.

(** X14. A successful [write_profile_to_file] changes the target file and
    nothing else: the target then holds the magic header of the supported
    version, the identifier, version and managers of the profile and, for
    base, the identifier of the base only; every other file reads as
    before, no file disappears, and the locations are as they were. *)
Theorem write_profile_changes_target_only w p file_path locs check w' :
  write_profile_to_file w p file_path locs check = Ret w' ->
  lookup_file (files w') file_path =
    Some (mkDocument (Some magic_header) (Some (identifier p))
            (Some (version p)) (option_map identifier (base p))
            (Some (managers p))) /\
  (forall q, q <> file_path ->
     lookup_file (files w') q = lookup_file (files w) q) /\
  (forall q, In q (map fst (files w')) <->
             In q (map fst (files w)) \/ q = file_path) /\
  environ_locations w' = environ_locations w /\
  _PROFILE_LOCATIONS_INTERNAL w' = _PROFILE_LOCATIONS_INTERNAL w.
Proof. apply write_profile_changes_target_only_aux. Qed.

Lemma is_profile_path_same w w' (q : Path) :
  lookup_file (files w') q = lookup_file (files w) q ->
  is_profile_path w' q = is_profile_path w q.
Proof. unfold is_profile_path. intros ->. reflexivity. Qed.

Lemma in_candidates (w : World) locs (q : Path) :
  In q (candidates w locs) <->
  In q (map fst (files w)) /\ In (parent q) (effective_locations w locs) /\
  PyStr.endswith (name q) ".yml" = true.
Proof.
  unfold candidates. rewrite in_flat_map. split.
  - intros (loc & Hloc & Hq). apply glob_yml_In in Hq.
    destruct Hq as (Hin & <- & Hend). auto.
  - intros (Hin & Hloc & Hend). exists (parent q).
    split; [exact Hloc|]. apply glob_yml_In. auto.
Qed.

(** X15. With the check of the identifier, a write that succeeds keeps the
    identifier unique when it was so before: if every file that declared
    the identifier of the profile was the target itself (or none did), then
    after the write the lookup of that identifier succeeds and finds no
    other file than the target, and it finds the target when the target is
    a [.yml] file directly in one of the searched locations. *)
Theorem checked_write_keeps_identifier_unique w p file_path locs w' paths :
  write_profile_to_file w p file_path locs true = Ret w' ->
  get_profile_file_path w (identifier p) locs = Ret paths ->
  (forall q, In q paths -> q = file_path) ->
  exists paths',
    get_profile_file_path w' (identifier p) locs = Ret paths' /\
    (forall q, In q paths' -> q = file_path) /\
    (In (parent file_path) (effective_locations w locs) ->
     suffix file_path = ".yml" -> In file_path paths').
Proof.
  intros Hwrite Hpaths Honly.
  destruct (write_profile_changes_target_only_aux w p file_path locs true w'
              Hwrite) as (Htarget & Hothers & Hfiles & Henv & Hint).
  assert (Heff : effective_locations w' locs = effective_locations w locs).
  { unfold effective_locations, get_profile_locations.
    rewrite Henv, Hint. reflexivity. }
  rewrite get_profile_file_path_pure in Hpaths. cbv zeta in Hpaths.
  destruct (forallb (has_identifier w)
              (filter (is_profile_path w) (candidates w locs))) eqn:Hids;
    [|discriminate].
  injection Hpaths as <-. rewrite forallb_forall in Hids.
  assert (Hold : forall q, q <> file_path ->
            In q (filter (is_profile_path w') (candidates w' locs)) ->
            In q (filter (is_profile_path w) (candidates w locs))).
  { intros q Hq Hin. apply filter_In in Hin. destruct Hin as [Hc Hprof].
    apply filter_In. rewrite <- (is_profile_path_same w w' q (Hothers q Hq)).
    split; [|exact Hprof].
    apply in_candidates in Hc. apply in_candidates.
    rewrite Heff in Hc. destruct Hc as (Hin & Hloc & Hend).
    apply Hfiles in Hin. destruct Hin as [Hin | ->]; [auto | contradiction]. }
  rewrite get_profile_file_path_pure. cbv zeta.
  assert (Hids' : forallb (has_identifier w')
                    (filter (is_profile_path w') (candidates w' locs)) = true).
  { apply forallb_forall. intros q Hq.
    destruct (list_eq_dec string_dec q file_path) as [->|Hne].
    - unfold has_identifier. rewrite Htarget. reflexivity.
    - unfold has_identifier. rewrite (Hothers q Hne).
      apply (Hids q). exact (Hold q Hne Hq). }
  rewrite Hids'. eexists. split; [reflexivity|]. split.
  - intros q Hq. apply filter_In in Hq. destruct Hq as [Hall Hdecl].
    destruct (list_eq_dec string_dec q file_path) as [->|Hne]; [reflexivity|].
    apply Honly. apply filter_In. split; [exact (Hold q Hne Hall)|].
    unfold declares in *. rewrite <- (Hothers q Hne). exact Hdecl.
  - intros Hloc Hs. apply filter_In. split.
    + apply filter_In. split.
      * apply in_candidates. rewrite Heff.
        split; [apply Hfiles; right; reflexivity|].
        split; [exact Hloc | apply suffix_yml_endswith; exact Hs].
      * unfold is_profile_path. rewrite Htarget, Hs. reflexivity.
    + unfold declares. rewrite Htarget. apply String.eqb_refl.
Qed.

End WritingMore.

Lemma add_profile_location_registers_once_witness :
  _PROFILE_LOCATIONS_INTERNAL (add_profile_location world_dup profiles_dir) =
    [profiles_dir] /\
  NoDup (_PROFILE_LOCATIONS_INTERNAL (add_profile_location world_dup profiles_dir)).
Proof.
  destruct (add_profile_location_registers_once world_dup profiles_dir)
    as (_ & _ & Hnew & Hnd & _).
  split; [apply Hnew; intros [] | apply Hnd; constructor].
Defined.

Lemma registered_locations_searched_last_witness :
  get_profile_locations (add_profile_location world_cycle dup_one) =
    [profiles_dir; dup_one].
Proof.
  destruct (registered_locations_searched_last world_cycle dup_one)
    as (_ & _ & Hlast & _).
  apply Hlast. intros [].
Defined.

Lemma main_registers_locations_witness :
  NoDup (_PROFILE_LOCATIONS_INTERNAL
           (main_add_profile_locations world_dup
              [profiles_dir; dup_one; profiles_dir])).
Proof.
  destruct (main_registers_locations [profiles_dir; dup_one; profiles_dir]
              world_dup) as (_ & Hnd & _).
  apply Hnd. constructor.
Defined.

Lemma write_profile_changes_target_only_witness :
  lookup_file
    (files (write_text world_base derived_file
              (profile_document "p" "1" (Some "b") managers_over)))
    base_file
  = lookup_file (files world_base) base_file.
Proof.
  destruct (write_profile_changes_target_only world_base derived_true
              derived_file searched true
              (write_text world_base derived_file
                 (profile_document "p" "1" (Some "b") managers_over))
              eq_refl) as (_ & Hothers & _).
  apply Hothers. discriminate.
Defined.

Lemma checked_write_keeps_identifier_unique_witness :
  exists paths',
    get_profile_file_path
      (write_text world_base base_file
         (profile_document "b" "2" None []))
      "b" searched = Ret paths' /\
    (forall q, In q paths' -> q = base_file) /\
    In base_file paths'.
Proof.
  destruct (checked_write_keeps_identifier_unique world_base
              (mkEnvironmentProfile "b" "2" None []) base_file searched
              (write_text world_base base_file
                 (profile_document "b" "2" None []))
              [base_file] eq_refl eq_refl)
    as (paths' & Hlookup & Honly & Hfound).
  - intros q [<- | []]. reflexivity.
  - exists paths'. split; [exact Hlookup|]. split; [exact Honly|].
    apply Hfound; [left; reflexivity | reflexivity].
Defined.

(** ** Profiles, continued *)

Section ProfileMore.

Variable deepmerge_dicts :
  dict -> dict -> (string -> Merging.MergeRule) -> (string -> string) -> dict.

Local Abbreviation plus := (__add__ deepmerge_dicts).
Local Abbreviation flat := (get_merged_profile deepmerge_dicts).

(** X16. [to_dict] and [from_dict] are inverse to each other on
    profiles: the mapping built from a profile gives the profile back,
    base included. *)
Theorem from_dict_to_dict (p : EnvironmentProfile) :
  from_dict (to_dict p) = Ret p.
Proof. destruct p as [i v b m]. reflexivity. Qed.

(** X17. [from_dict] asks for the keys [identifier], [version] and
    [managers], in that order, and raises [KeyError] for the first that is
    missing; the key [base] may be missing, and the profile then has no
    base. *)
Theorem from_dict_missing_keys (s : serialized_profile) :
  (s_identifier s = None -> from_dict s = Raise (KeyError "identifier")) /\
  (s_identifier s <> None -> s_version s = None ->
   from_dict s = Raise (KeyError "version")) /\
  (s_identifier s <> None -> s_version s <> None -> s_managers s = None ->
   from_dict s = Raise (KeyError "managers")) /\
  (forall i v m,
     s_identifier s = Some i -> s_version s = Some v ->
     s_managers s = Some m -> s_base s = None ->
     from_dict s = Ret (mkEnvironmentProfile i v None m)).
Proof.
  unfold from_dict. split; [|split; [|split]].
  - intros ->. reflexivity.
  - intros Hi ->. destruct (s_identifier s); [reflexivity | contradiction].
  - intros Hi Hv ->.
    destruct (s_identifier s); [|contradiction].
    destruct (s_version s); [reflexivity | contradiction].
  - intros i v m -> -> -> ->. reflexivity.
Qed.

(** X18. Flattening is idempotent, and a base may be flattened ahead of
    time: flattening a flattened profile gives the same profile, and a
    profile flattens to the same result whether its base is given as it is
    or already flattened. *)
Theorem get_merged_profile_idempotent (p : EnvironmentProfile) :
  flat (flat p) = flat p /\
  (forall i v m,
     flat (mkEnvironmentProfile i v (Some (flat p)) m) =
     flat (mkEnvironmentProfile i v (Some p) m)).
Proof.
  assert (H : flat (flat p) = flat p) by (destruct p; reflexivity).
  split; [exact H|].
  intros i v m. simpl. fold (flat (flat p)). rewrite H. reflexivity.
Qed.

Lemma lineage_root_first (p : EnvironmentProfile) :
  exists root rest,
    lineage p = root :: rest /\ base root = None /\
    managers (flat p) =
      fold_left (fun acc q => plus acc (managers q)) rest (managers root).
Proof.
  induction p as [i v m | i v b m IH] using EnvironmentProfile_ind.
  - exists (mkEnvironmentProfile i v None m), []. auto.
  - destruct IH as (root & rest & Hlin & Hroot & Hman).
    exists root, (rest ++ [mkEnvironmentProfile i v (Some b) m]).
    split; [simpl; rewrite Hlin; reflexivity|].
    split; [exact Hroot|].
    rewrite fold_left_app. simpl. rewrite <- Hman. reflexivity.
Qed.

(** X19. Flattening a chain of any length folds the chain from its root:
    the managers of the flattened profile are the managers of the root,
    combined in turn with the managers of each descendant down to the
    profile itself, each descendant on the over side. *)
Theorem get_merged_profile_folds_lineage (p : EnvironmentProfile) :
  exists root rest,
    lineage p = root :: rest /\ base root = None /\
    managers (flat p) =
      fold_left (fun acc q => plus acc (managers q)) rest (managers root).
Proof. apply lineage_root_first. Qed.

End ProfileMore.

Section Token.

Lemma strip_prefix_spec (p s r : string) :
  PyStr.strip_prefix p s = Some r <-> s = (p ++ r)%string.
Proof.
  revert s. induction p as [|a p IH]; intros s; simpl.
  - split; [intros H; injection H as ->; reflexivity | intros ->; reflexivity].
  - destruct s as [|b s]; [split; discriminate|].
    destruct (Ascii.eqb_spec a b) as [->|Hne].
    + rewrite IH. split; [intros ->; reflexivity | intros H; injection H; auto].
    + split; [discriminate | intros H; injection H; congruence].
Qed.

(** X20. The token encodes the rule of a key without loss: a key is its
    resolved name, preceded by the token exactly when its rule is
    [append]; and a name preceded by the token resolves to the name with
    the rule [append]. Only one token is read: the resolved name may
    itself start with the token. *)
Theorem token_encodes_rule (key : string) :
  key = ((match merge_rule key with
          | Merging.append => TOKEN
          | Merging.override => ""
          end) ++ key_resolve key)%string /\
  key_resolve (TOKEN ++ key) = key /\
  merge_rule (TOKEN ++ key) = Merging.append.
Proof.
  unfold merge_rule, key_resolve, PyStr.startswith, PyStr.removeprefix.
  split.
  - destruct (PyStr.strip_prefix TOKEN key) as [r|] eqn:Hr; [|reflexivity].
    apply strip_prefix_spec in Hr. exact Hr.
  - assert (H : PyStr.strip_prefix TOKEN (TOKEN ++ key) = Some key)
      by (apply strip_prefix_spec; reflexivity).
    rewrite H. auto.
Qed.

End Token.

Lemma from_dict_missing_keys_witness :
  from_dict (mk_serialized_profile (Some "p") None None None) =
    Raise (KeyError "version") /\
  from_dict (mk_serialized_profile (Some "p") (Some "1") None (Some [])) =
    Ret (mkEnvironmentProfile "p" "1" None []).
Proof.
  split.
  - apply (from_dict_missing_keys
             (mk_serialized_profile (Some "p") None None None));
      [discriminate | reflexivity].
  - destruct (from_dict_missing_keys
                (mk_serialized_profile (Some "p") (Some "1") None (Some [])))
      as (_ & _ & _ & Hok).
    apply Hok; reflexivity.
Defined.

(** ** The store, continued *)

Section HeapMore.

Variable deepmerge_dicts :
  dict -> dict -> (string -> Merging.MergeRule) -> (string -> string) -> dict.

Local Abbreviation run := (Heap.get_merged_profile deepmerge_dicts).

(** X21. The flattened copy of a profile without base shares its managers
    with the profile: its field refers to the same object, and the call
    allocates the copy only. The flattened copy of a profile with a base
    refers to a managers object that did not exist before the call. *)
Theorem get_merged_profile_managers_aliasing fuel s self s' r i v b m :
  Heap.get_merged_profile deepmerge_dicts fuel s self = Ret (s', r) ->
  nth_error s self = Some (Heap.ObjProfile i v b m) ->
  match b with
  | None =>
      nth_error s' r = Some (Heap.ObjProfile i v None m) /\
      s' = s ++ [Heap.ObjProfile i v None m]
  | Some _ =>
      exists m',
        nth_error s' r = Some (Heap.ObjProfile i v None m') /\
        nth_error s m' = None /\
        exists content, nth_error s' m' = Some (Heap.ObjManagers content)
  end.
Proof.
  destruct fuel as [|fuel]; [discriminate|]. simpl. intros Hrun Hself.
  rewrite Hself in Hrun. destruct b as [ba|].
  - destruct (run fuel s ba) as [[s1 r1]| | |] eqn:Hrec; simpl in Hrun;
      try discriminate.
    destruct (get_merged_profile_allocates _ _ _ _ _ _ Hrec) as [_ [Hlo _]].
    destruct (nth_error s1 r1) as [[i1 v1 b1 bm|c]|]; try discriminate.
    destruct (nth_error s1 bm) as [[? ? ? ?|bc]|]; try discriminate.
    destruct (nth_error s1 m) as [[? ? ? ?|oc]|]; try discriminate.
    injection Hrun as <- <-.
    exists (List.length s1). split; [apply nth_error_alloc|].
    split.
    + apply nth_error_None.
      assert (List.length s <= List.length s1).
      { destruct (get_merged_profile_allocates _ _ _ _ _ _ Hrec) as [_ [? ?]].
        lia. }
      assumption.
    + eexists. rewrite nth_error_app1 by (rewrite length_app; simpl; lia).
      apply nth_error_alloc.
  - injection Hrun as <- <-. split; [apply nth_error_alloc | reflexivity].
Qed.

End HeapMore.

Lemma get_merged_profile_managers_aliasing_witness :
  nth_error (fst store_ABC_after) (snd store_ABC_after) <>
    Some (Heap.ObjProfile "C" "3" None 4) /\
  Heap.get_merged_profile Merging.deepmerge_dicts 1 store_ABC 1 =
    Ret (store_ABC ++ [Heap.ObjProfile "A" "1" None 0], 6).
Proof.
  split.
  - destruct (get_merged_profile_managers_aliasing Merging.deepmerge_dicts
                3 store_ABC 5 (fst store_ABC_after) (snd store_ABC_after)
                "C" "3" (Some 3) 4 eq_refl eq_refl)
      as (m' & Hr & Hfresh & _).
    rewrite Hr. intros H. injection H as ->. discriminate Hfresh.
  - reflexivity.
Defined.

(** ** The configuration *)

Section ConfigFacts.

Import Config.

Lemma split_not_nil (sep : ascii) (s : string) : split sep s <> [].
Proof.
  destruct s as [|c s]; simpl; [discriminate|].
  destruct (Ascii.eqb c sep); [discriminate|].
  destruct (split sep s); discriminate.
Qed.

Lemma join_cons_char (sep : string) c x xs :
  join sep (String c x :: xs) = String c (join sep (x :: xs)).
Proof. destruct xs; reflexivity. Qed.

Lemma join_split (sep : ascii) (s : string) :
  join (String sep EmptyString) (split sep s) = s.
Proof.
  induction s as [|c s IH]; [reflexivity|]. simpl.
  destruct (Ascii.eqb_spec c sep) as [->|Hne].
  - pose proof (split_not_nil sep s) as Hnil.
    destruct (split sep s) as [|y ys]; [contradiction|].
    change (join (String sep "") ("" :: y :: ys))
      with (String sep (join (String sep "") (y :: ys))).
    rewrite IH. reflexivity.
  - pose proof (split_not_nil sep s) as Hnil.
    destruct (split sep s) as [|y ys]; [contradiction|].
    rewrite join_cons_char, IH. reflexivity.
Qed.

Lemma split_parts_free (sep : ascii) (s : string) :
  Forall (fun part => contains sep part = false) (split sep s).
Proof.
  induction s as [|c s IH]; simpl; [repeat constructor|].
  destruct (Ascii.eqb c sep) eqn:Hc; [constructor; [reflexivity | exact IH]|].
  destruct (split sep s) as [|y ys]; [repeat constructor; simpl; rewrite Hc;
                                      reflexivity|].
  inversion IH as [|? ? Hy Hys]; subst.
  constructor; [simpl; rewrite Hc, Hy; reflexivity | exact Hys].
Qed.

(** X22. [_cast_list] cuts the text at its commas and loses nothing:
    joining the parts with commas gives the text back, no part holds a
    comma, and there is always at least one part (the empty text gives one
    empty name, not an empty list). *)
Theorem cast_list_round_trip (src_str : string) :
  join "," (_cast_list src_str) = src_str /\
  Forall (fun part => contains "," part = false) (_cast_list src_str) /\
  _cast_list src_str <> [] /\
  _cast_list "" = [""].
Proof.
  unfold _cast_list. split; [apply (join_split ","%char)|].
  split; [apply split_parts_free|].
  split; [apply split_not_nil | reflexivity].
Qed.

Lemma find_unknown_key (d : dict) :
  forallb is_field_name (keys d) = true ->
  find (fun kv => negb (is_field_name (fst kv))) d = None.
Proof.
  induction d as [|[k x] rest IH]; simpl; [reflexivity|].
  intros H. apply andb_true_iff in H. destruct H as [Hk Hrest].
  rewrite Hk. simpl. exact (IH Hrest).
Qed.

Lemma find_first_unknown_key (before after : dict) key x :
  forallb is_field_name (keys before) = true ->
  is_field_name key = false ->
  find (fun kv => negb (is_field_name (fst kv)))
       (before ++ (key, x) :: after) = Some (key, x).
Proof.
  induction before as [|[k y] rest IH]; simpl; intros Hb Hk.
  - rewrite Hk. reflexivity.
  - apply andb_true_iff in Hb. destruct Hb as [Hk' Hrest].
    rewrite Hk'. simpl. exact (IH Hrest Hk).
Qed.

(** X23. [from_file] builds the configuration from the keys of the file:
    a missing file raises [FileNotFoundError]; a content that is no mapping
    is refused; a key that is no field of the class is refused, the first
    such key being the one reported; otherwise each field takes the value
    of its key, of whatever type, or its default when the key is absent.
    A configuration written out with [asdict] is built back unchanged. *)
Theorem from_file_cases (env : Environment) (file_path : string) :
  (load_yaml env file_path = None ->
   from_file env file_path = Err (FileNotFound file_path)) /\
  (forall v, load_yaml env file_path = Some v ->
     (forall d, v <> VDict d) -> from_file env file_path = Err NotAMapping) /\
  (forall before key x after,
     load_yaml env file_path = Some (VDict (before ++ (key, x) :: after)) ->
     forallb is_field_name (keys before) = true ->
     is_field_name key = false ->
     from_file env file_path = Err (UnexpectedKeyword key)) /\
  (forall d,
     load_yaml env file_path = Some (VDict d) ->
     forallb is_field_name (keys d) = true ->
     from_file env file_path =
       Ok (mkKlochConfig
             (get_or d "launcher_plugins" (launcher_plugins default_config))
             (get_or d "cli_logging_format"
                (cli_logging_format default_config))
             (get_or d "cli_logging_default_level"
                (cli_logging_default_level default_config)))) /\
  (forall c, init (asdict c) = Ok c).
Proof.
  unfold from_file. split; [|split; [|split; [|split]]].
  - intros ->. reflexivity.
  - intros v -> Hv. destruct v; try reflexivity. exfalso. eapply Hv. reflexivity.
  - intros before key x after -> Hb Hk. unfold init.
    rewrite (find_first_unknown_key before after key x Hb Hk). reflexivity.
  - intros d -> Hd. unfold init. rewrite (find_unknown_key d Hd). reflexivity.
  - intros [a b c]. reflexivity.
Qed.

(** X24. [from_environment] gives each field, in this order of
    precedence, the cast of its own environment variable when that is set
    (to any text, the empty one included), else the value of the
    configuration file named by [KLOCH_CONFIG_PATH], else its default. When
    that variable is unset or empty no file is read and the call cannot
    fail; when it names a file, the only failures are those of
    [from_file]. *)
Theorem from_environment_precedence (env : Environment) :
  let pick f fallback := field_value env f fallback in
  ((getenv env KLOCH_CONFIG_ENV_VAR = None \/
    getenv env KLOCH_CONFIG_ENV_VAR = Some "") ->
   from_environment env =
     Ok (mkKlochConfig
           (pick launcher_plugins_field (launcher_plugins default_config))
           (pick cli_logging_format_field (cli_logging_format default_config))
           (pick cli_logging_default_level_field
              (cli_logging_default_level default_config)))) /\
  (forall path base,
     getenv env KLOCH_CONFIG_ENV_VAR = Some path -> path <> "" ->
     from_file env path = Ok base ->
     from_environment env =
       Ok (mkKlochConfig
             (pick launcher_plugins_field (launcher_plugins base))
             (pick cli_logging_format_field (cli_logging_format base))
             (pick cli_logging_default_level_field
                (cli_logging_default_level base)))) /\
  (forall path e,
     getenv env KLOCH_CONFIG_ENV_VAR = Some path -> path <> "" ->
     from_file env path = Err e ->
     from_environment env = Err e).
Proof.
  cbv zeta.
  assert (Hfold : forall d,
    override_from_environment env d =
      let d1 := match getenv env (environ launcher_plugins_field) with
                | Some t => dict_set d "launcher_plugins"
                              (environ_cast launcher_plugins_field t)
                | None => d end in
      let d2 := match getenv env (environ cli_logging_format_field) with
                | Some t => dict_set d1 "cli_logging_format" (VStr t)
                | None => d1 end in
      match getenv env (environ cli_logging_default_level_field) with
      | Some t => dict_set d2 "cli_logging_default_level" (VStr t)
      | None => d2 end) by reflexivity.
  assert (Hempty :
    init (override_from_environment env []) =
      Ok (mkKlochConfig
            (field_value env launcher_plugins_field
               (launcher_plugins default_config))
            (field_value env cli_logging_format_field
               (cli_logging_format default_config))
            (field_value env cli_logging_default_level_field
               (cli_logging_default_level default_config)))).
  { rewrite Hfold. unfold field_value. cbv zeta.
    destruct (getenv env (environ launcher_plugins_field)),
      (getenv env (environ cli_logging_format_field)),
      (getenv env (environ cli_logging_default_level_field)); reflexivity. }
  assert (Hbase : forall base,
    init (override_from_environment env (asdict base)) =
      Ok (mkKlochConfig
            (field_value env launcher_plugins_field (launcher_plugins base))
            (field_value env cli_logging_format_field (cli_logging_format base))
            (field_value env cli_logging_default_level_field
               (cli_logging_default_level base)))).
  { intros [a b c]. rewrite Hfold. unfold field_value. cbv zeta.
    destruct (getenv env (environ launcher_plugins_field)),
      (getenv env (environ cli_logging_format_field)),
      (getenv env (environ cli_logging_default_level_field)); reflexivity. }
  unfold from_environment. split; [|split].
  - intros [-> | ->]; exact Hempty.
  - intros path base -> Hne ->. destruct path; [contradiction|]. apply Hbase.
  - intros path e -> Hne ->. destruct path; [contradiction|]. reflexivity.
Qed.

End ConfigFacts.

Lemma from_file_cases_witness :
  Config.from_file environment_blaj "config-molg.yml" =
    Config.Err (Config.UnexpectedKeyword "NON_VALID_KEY") /\
  Config.from_file environment_blaj "missing.yml" =
    Config.Err (Config.FileNotFound "missing.yml").
Proof.
  split.
  - destruct (from_file_cases environment_blaj "config-molg.yml")
      as (_ & _ & Hkey & _).
    apply (Hkey [("cli_logging_format", VStr "{message}")]
             "NON_VALID_KEY" (VInt 1) []); reflexivity.
  - apply (from_file_cases environment_blaj "missing.yml"). reflexivity.
Defined.

Lemma from_environment_precedence_witness :
  Config.from_environment environment_blaj =
    Config.Ok (Config.mkKlochConfig (VList [])
                 (VStr "{levelname: <7}: {message}") (VStr "ERROR")) /\
  Config.from_environment environment_empty_plugins =
    Config.Ok (Config.mkKlochConfig (VList [VStr ""])
                 (Config.cli_logging_format Config.default_config)
                 (Config.cli_logging_default_level Config.default_config)).
Proof.
  split.
  - destruct (from_environment_precedence environment_blaj) as (_ & Hfile & _).
    assert (Hpath : "config-blaj.yml" <> "") by discriminate.
    exact (Hfile "config-blaj.yml"
             (Config.mkKlochConfig (VList [])
                (VStr "{levelname: <7}: {message}") (VStr "WARNING"))
             eq_refl Hpath eq_refl).
  - destruct (from_environment_precedence environment_empty_plugins)
      as (Hnone & _).
    apply Hnone. left. reflexivity.
Defined.

(** ** Locations listed more than once *)

Section RepeatedLocations.

Lemma get_profile_file_path_app w profile_id (l1 l2 : list Path) r1 r2 :
  l1 <> [] -> l2 <> [] ->
  get_profile_file_path w profile_id (Some l1) = Ret r1 ->
  get_profile_file_path w profile_id (Some l2) = Ret r2 ->
  get_profile_file_path w profile_id (Some (l1 ++ l2)) = Ret (r1 ++ r2).
Proof.
  intros H1 H2. rewrite !get_profile_file_path_pure. cbv zeta.
  unfold candidates.
  assert (E1 : effective_locations w (Some l1) = l1)
    by (destruct l1; [contradiction | reflexivity]).
  assert (E2 : effective_locations w (Some l2) = l2)
    by (destruct l2; [contradiction | reflexivity]).
  assert (E : effective_locations w (Some (l1 ++ l2)) = l1 ++ l2)
    by (destruct l1; [contradiction | reflexivity]).
  rewrite E1, E2, E, flat_map_app, filter_app, forallb_app.
  destruct (forallb _ _); [|discriminate].
  destruct (forallb _ _); [|discriminate].
  intros R1 R2. injection R1 as <-. injection R2 as <-.
  rewrite filter_app. reflexivity.
Qed.

(** X25. Searching a list of locations is searching its parts in turn: the
    lookup by identifier in two non-empty lists of locations put end to
    end returns the matches of the first followed by the matches of the
    second. *)
Theorem get_profile_file_path_concatenates w profile_id
    (l1 l2 : list Path) r1 r2 :
  l1 <> [] -> l2 <> [] ->
  get_profile_file_path w profile_id (Some l1) = Ret r1 ->
  get_profile_file_path w profile_id (Some l2) = Ret r2 ->
  get_profile_file_path w profile_id (Some (l1 ++ l2)) = Ret (r1 ++ r2).
Proof. apply get_profile_file_path_app. Qed.

(** X26. A location listed twice makes every base ambiguous: when a
    location holds the one file that declares the base of a profile,
    reading the profile with that location given twice raises the
    "multiple profile" [ValueError], the same file being counted twice.
    Registering a location that the environment variable already names
    lists it twice in the default locations. *)
Theorem repeated_location_makes_base_ambiguous :
  (forall fuel w file_path location d magic base_name base_path,
     yaml_load w file_path = Ret d ->
     doc_magic d = Some magic ->
     PyStr.int (PyStr.split_last ":" magic) = Some KENV_PROFILE_VERSION ->
     doc_base d = Some base_name -> base_name <> "" ->
     get_profile_file_path w base_name (Some [location]) = Ret [base_path] ->
     read_profile_from_file (S fuel) w file_path (Some [location; location]) =
       Raise (ValueError
                (multiple_base_message base_name file_path
                   [base_path; base_path]))) /\
  (forall w location,
     In location (environ_locations w) ->
     ~ In location (_PROFILE_LOCATIONS_INTERNAL w) ->
     exists before between,
       get_profile_locations (add_profile_location w location) =
         before ++ location :: between ++ [location]).
Proof.
  split.
  - intros fuel w file_path location d magic base_name base_path
      Hd Hm Hint Hb Hne Hp.
    assert (Hlist : [location] <> []) by discriminate.
    pose proof (get_profile_file_path_app w base_name [location] [location]
                  [base_path] [base_path] Hlist Hlist Hp Hp) as Htwice.
    simpl in Htwice.
    rewrite (read_profile_base_lookup fuel w file_path
               (Some [location; location]) d magic base_name
               [base_path; base_path] Hd Hm Hint Hb Hne Htwice).
    reflexivity.
  - intros w location Henv Hout.
    rewrite get_profile_locations_app.
    destruct (add_profile_location_frame w location) as [_ ->].
    rewrite add_profile_location_internal.
    destruct (path_in location (_PROFILE_LOCATIONS_INTERNAL w)) eqn:Hin.
    + apply path_in_In in Hin. contradiction.
    + destruct (in_split _ _ Henv) as (l1 & l2 & ->).
      exists l1, (l2 ++ _PROFILE_LOCATIONS_INTERNAL w).
      repeat rewrite <- app_assoc. reflexivity.
Qed.

End RepeatedLocations.

Lemma get_profile_file_path_concatenates_witness :
  get_profile_file_path world_dup "dup" (Some ([profiles_dir] ++ [profiles_dir]))
    = Ret ([dup_one; dup_two] ++ [dup_one; dup_two]).
Proof.
  apply (get_profile_file_path_concatenates world_dup "dup"
           [profiles_dir] [profiles_dir]); try reflexivity; discriminate.
Defined.

Lemma repeated_location_makes_base_ambiguous_witness :
  read_profile_from_file 2 world_chain middle_file
    (Some [profiles_dir; profiles_dir]) =
    Raise (ValueError
             (multiple_base_message "root" middle_file [root_file; root_file])) /\
  exists before between,
    get_profile_locations (add_profile_location world_cycle profiles_dir) =
      before ++ profiles_dir :: between ++ [profiles_dir].
Proof.
  destruct repeated_location_makes_base_ambiguous as [Hread Hregister].
  split.
  - assert (Hroot : "root" <> "") by discriminate.
    exact (Hread 1 world_chain middle_file profiles_dir
             (profile_document "middle" "1" (Some "root") []) magic_header
             "root" root_file eq_refl eq_refl eq_refl eq_refl Hroot eq_refl).
  - apply (Hregister world_cycle profiles_dir); [left; reflexivity | intros []].
Defined.
